(** * Geode mod creator: file generation and project-state model

    A shallow embedding of [src/services/modGenerator.ts], of the file-tree
    handling in [src/App.tsx] and of the settings handler in
    [src/components/ModForm.tsx], with the properties of the specification
    stated and proved over it.

    JavaScript strings are modelled by [string]; every character stands for
    one code unit below 256.  A JavaScript object used as a dictionary of
    files is a [gmap] of its own properties; an assignment [o[k] = v] to
    the name [__proto__] goes to the setter of [Object.prototype] unless
    the object has that name as an own property, and a read [o[k]] also
    finds the names [Object.prototype] has.  An object that is printed
    (the manifest) is an association list in the order of its own
    property keys.  The clock enters as the year
    [new Date().getFullYear()] returned. *)

From Stdlib Require Import ZArith Ascii String List Bool Lia.
From stdpp Require Import base option list gmap strings fin_maps pretty.

Local Open Scope Z_scope.

(** ** JavaScript primitives used by the sources *)

Module JS.

(** Truthiness of a string: every string but the empty one. *)
Definition truthy (s : string) : bool :=
  match s with EmptyString => false | String _ _ => true end.

(** Truthiness of an optional string ([undefined] is falsy). *)
Definition truthy_opt (o : option string) : bool :=
  match o with Some s => truthy s | None => false end.

(** [s || d] on strings. *)
Definition or_else (s d : string) : string := if truthy s then s else d.

(** The double quote, which a string literal cannot hold. *)
Definition dq : string := String (ascii_of_nat 34) EmptyString.

Definition strlen (s : string) : Z := Z.of_nat (String.length s).

(** [s.startsWith(p)] and [s.endsWith(p)]. *)
Fixpoint startsWith (p s : string) : bool :=
  match p, s with
  | EmptyString, _ => true
  | String a p', String b s' => Ascii.eqb a b && startsWith p' s'
  | String _ _, EmptyString => false
  end.

Fixpoint endsWith (p s : string) : bool :=
  match s with
  | EmptyString => String.eqb p EmptyString
  | String _ s' => String.eqb p s || endsWith p s'
  end.

(** [s.lastIndexOf(c)] for a one-character pattern: the index of the last
    occurrence, [-1] when there is none. *)
Fixpoint lastIndexOf (c : ascii) (s : string) : Z :=
  match s with
  | EmptyString => -1
  | String a r =>
      let k := lastIndexOf c r in
      if 0 <=? k then k + 1 else if Ascii.eqb a c then 0 else -1
  end.

(** [s.substring(i, j)]: both indices are clamped to the string and swapped
    when out of order. *)
Definition clamp (s : string) (i : Z) : Z := Z.max 0 (Z.min i (strlen s)).

Definition substring (s : string) (i j : Z) : string :=
  let lo := Z.min (clamp s i) (clamp s j) in
  let hi := Z.max (clamp s i) (clamp s j) in
  String.substring (Z.to_nat lo) (Z.to_nat (hi - lo)) s.

(** [s.substring(i)]. *)
Definition substringFrom (s : string) (i : Z) : string :=
  substring s i (strlen s).

(** [s.split(c)] for a one-character separator; the empty string splits
    into one empty piece. *)
Fixpoint split (sep : ascii) (s : string) : list string :=
  match s with
  | EmptyString => [EmptyString]
  | String a r =>
      if Ascii.eqb a sep then EmptyString :: split sep r
      else match split sep r with
           | h :: t => String a h :: t
           | [] => [String a EmptyString]
           end
  end.

(** White space and line terminators among the code units below 256. *)
Definition is_space (a : ascii) : bool :=
  match nat_of_ascii a with
  | 9%nat | 10%nat | 11%nat | 12%nat | 13%nat | 32%nat | 160%nat => true
  | _ => false
  end.

Fixpoint trimStart (s : string) : string :=
  match s with
  | EmptyString => EmptyString
  | String a r => if is_space a then trimStart r else s
  end.

Fixpoint trimEnd (s : string) : string :=
  match s with
  | EmptyString => EmptyString
  | String a r =>
      match trimEnd r with
      | EmptyString => if is_space a then EmptyString else String a EmptyString
      | r' => String a r'
      end
  end.

(** [s.trim()]. *)
Definition trim (s : string) : string := trimEnd (trimStart s).

(** [s.replace(/\.git$/, '')]: a final [.git] is dropped. *)
Definition strip_suffix (suf s : string) : string :=
  if endsWith suf s then substring s 0 (strlen s - strlen suf) else s.

(** [s.replace(p, r)] for a string pattern: the first occurrence only. *)
Fixpoint replaceFirst (p r s : string) : string :=
  if startsWith p s then r +:+ substringFrom s (strlen p)
  else match s with
       | EmptyString => EmptyString
       | String a s' => String a (replaceFirst p r s')
       end.

(** Character-wise map, for a global replace of a character class. *)
Fixpoint map_chars (f : ascii -> ascii) (s : string) : string :=
  match s with
  | EmptyString => EmptyString
  | String a r => String (f a) (map_chars f r)
  end.

Definition in_range (lo hi : nat) (a : ascii) : bool :=
  (lo <=? nat_of_ascii a)%nat && (nat_of_ascii a <=? hi)%nat.

(** [toLowerCase] on code units below 256: A-Z, and the Latin-1 capitals
    0xC0-0xDE but the multiplication sign 0xD7. *)
Definition lower_char (a : ascii) : ascii :=
  if in_range 65 90 a
     || (in_range 192 222 a && negb (Nat.eqb (nat_of_ascii a) 215))
  then ascii_of_nat (nat_of_ascii a + 32) else a.

Definition toLowerCase : string -> string := map_chars lower_char.

(** Array [join]. *)
Fixpoint join (sep : string) (l : list string) : string :=
  match l with
  | [] => EmptyString
  | [x] => x
  | x :: r => x +:+ sep +:+ join sep r
  end.

End JS.

(** ** The JavaScript runtime the generator relies on

    Numbers are IEEE doubles and [JSON.stringify] is a library function;
    both are taken as interfaces.  [parseInt10 s] is [parseInt(s, 10)],
    [num_to_string n] is [String(n)], [num_truthy n] is false on zero and
    on NaN, [num_zero] is the literal [0] (or [0.0]). *)

Class JSNumber := {
  number : Type;
  num_zero : number;
  parseInt10 : string -> number;
  parseFloat : string -> number;
  num_truthy : number -> bool;
  num_to_string : number -> string
}.

(** ** Data model ([types.ts]) *)

Inductive CppTemplate := menulayer | playlayer | settings_template.

Inductive ModSettingType := Tbool | Tint | Tfloat | Tstring.

(** The text the type tag has in the source. *)
Definition type_tag (t : ModSettingType) : string :=
  match t with
  | Tbool => "bool" | Tint => "int" | Tfloat => "float" | Tstring => "string"
  end.

(** [boolean | number | string], the default value of a setting. *)
Inductive SettingValue `{JSNumber} :=
| VBool (b : bool)
| VNum (n : number)
| VStr (s : string).

Module ModSetting.
Record t `{JSNumber} := mk {
  id : string;
  key : string;
  name : string;
  description : string;
  type : ModSettingType;
  default : SettingValue
}.
Global Arguments mk {_} _ _ _ _ _ _.
End ModSetting.

Module Platforms.
Record t := mk { win : bool; mac : bool; android : bool; ios : bool }.
End Platforms.

Module ModData.
Record t `{JSNumber} := mk {
  id : string;
  name : string;
  version : string;
  developer : string;
  description : string;
  logo : option string;
  dependencies : string;
  repository : string;
  cppTemplate : CppTemplate;
  includeCi : bool;
  platforms : Platforms.t;
  gdVersion : string;
  geodeVersion : string;
  tags : string;
  providesApi : bool;
  earlyLoad : bool;
  settings : list ModSetting.t
}.
Global Arguments mk {_} _ _ _ _ _ _ _ _ _ _ _ _ _ _ _ _ _.
End ModData.

Module Dependency.
Record t := mk { id : string; required : bool; version : string }.
End Dependency.

(** [GeneratedFiles = Record<string, string | undefined>]. *)
Abbreviation GeneratedFiles := (gmap string (option string)).

(** ** JSON values, with objects in insertion order *)

#[warnings="-register-all"]
Inductive json `{JSNumber} :=
| JBool (b : bool)
| JNum (n : number)
| JStr (s : string)
| JArr (l : list json)
| JObj (fields : list (string * json)).

Class JSONPrinter `{JSNumber} := {
  (** [JSON.stringify(v, null, indent)] *)
  JSON_stringify : json -> nat -> string
}.

(** [o[k] = v] on an insertion-ordered object: an existing property keeps
    its place, a new one goes last. *)
Fixpoint obj_set {V : Type} (k : string) (v : V) (o : list (string * V))
  : list (string * V) :=
  match o with
  | [] => [(k, v)]
  | (k', v') :: r =>
      if String.eqb k' k then (k, v) :: r else (k', v') :: obj_set k v r
  end.

(** [o[k]], [None] for an absent property. *)
Fixpoint obj_get {V : Type} (k : string) (o : list (string * V)) : option V :=
  match o with
  | [] => None
  | (k', v') :: r => if String.eqb k' k then Some v' else obj_get k r
  end.

(** [Object.keys(o)]. *)
Definition obj_keys {V : Type} (o : list (string * V)) : list string :=
  map fst o.

(** The array index a property name stands for: a decimal numeral without
    leading zero, at most 2^32 - 2.  Such names come first among the own
    property keys of an object, in ascending order. *)
Fixpoint digitsValue (s : string) (acc : N) : option N :=
  match s with
  | EmptyString => Some acc
  | String a r =>
      match Ascii.is_nat a with
      | Some d => digitsValue r (10 * acc + N.of_nat d)%N
      | None => None
      end
  end.

Definition arrayIndex (k : string) : option N :=
  match k with
  | EmptyString => None
  | String "0" EmptyString => Some 0%N
  | String "0" (String _ _) => None
  | _ =>
      match digitsValue k 0%N with
      | Some n => if (n <=? 4294967294)%N then Some n else None
      | None => None
      end
  end.

(** A new property with the array index [n] goes before the first
    property that is no array index or a larger one. *)
Fixpoint insertIndex {V : Type} (n : N) (k : string) (v : V)
    (o : list (string * V)) : list (string * V) :=
  match o with
  | [] => [(k, v)]
  | (k', v') :: r =>
      match arrayIndex k' with
      | Some m =>
          if (m <? n)%N then (k', v') :: insertIndex n k v r
          else (k, v) :: (k', v') :: r
      | None => (k, v) :: (k', v') :: r
      end
  end.

(** [o[k] = v] for a name [k] that is not fixed in the source and an
    object [v], on an object created by [{}]: the name [__proto__] sets
    the prototype and adds no property; an existing property keeps its
    place; a new array index goes among the array indices, any other new
    name goes last. *)
Definition obj_assign {V : Type} (k : string) (v : V) (o : list (string * V))
  : list (string * V) :=
  if String.eqb k "__proto__" then o
  else match obj_get k o with
       | Some _ => obj_set k v o
       | None =>
           match arrayIndex k with
           | Some n => insertIndex n k v o
           | None => o ++ [(k, v)]
           end
       end.

(** The order of own property keys as far as array indices go: they come
    before every other key and ascend. *)
Fixpoint ownKeyOrder (ks : list string) : bool :=
  match ks with
  | [] => true
  | k :: r =>
      match arrayIndex k with
      | Some n =>
          forallb (fun k' => match arrayIndex k' with
                             | Some m => (n <=? m)%N
                             | None => true
                             end) r
      | None =>
          forallb (fun k' => match arrayIndex k' with
                             | Some _ => false
                             | None => true
                             end) r
      end && ownKeyOrder r
  end.

(** ** The generator ([services/modGenerator.ts]) *)

Section Generator.
Context `{NUM : JSNumber} `{PR : !JSONPrinter}.

(** The platform-version map [gd] of [generateModJson]. *)
Definition gd (data : ModData.t) : list (string * string) :=
  let p := ModData.platforms data in
  let v := JS.or_else (ModData.gdVersion data) "*" in
  let gd := [] in
  let gd := if Platforms.win p then obj_set "win" v gd else gd in
  let gd := if Platforms.mac p then obj_set "mac" v gd else gd in
  let gd := if Platforms.android p then obj_set "android" v gd else gd in
  let gd := if Platforms.ios p then obj_set "ios" v gd else gd in
  gd.

(** The callback mapped over the dependency tokens. *)
Definition parseDependency (depString : string) : Dependency.t :=
  let lastAt := JS.lastIndexOf "@" depString in
  if 0 <? lastAt then
    let id := JS.substring depString 0 lastAt in
    let version := JS.substringFrom depString (lastAt + 1) in
    Dependency.mk id true (JS.or_else version "*")
  else
    Dependency.mk depString true "*".

(** [s.split(',').map(t => t.trim()).filter(t => t)]. *)
Definition tokens (s : string) : list string :=
  List.filter JS.truthy (map JS.trim (JS.split "," s)).

Definition dependenciesOf (data : ModData.t) : list Dependency.t :=
  map parseDependency (tokens (ModData.dependencies data)).

Definition json_of_dependency (d : Dependency.t) : json :=
  JObj [("id", JStr (Dependency.id d));
        ("required", JBool (Dependency.required d));
        ("version", JStr (Dependency.version d))].

(** [String(v)] and [!!v] on a setting default. *)
Definition value_to_string (v : SettingValue) : string :=
  match v with
  | VBool true => "true"
  | VBool false => "false"
  | VNum n => num_to_string n
  | VStr s => s
  end.

Definition value_truthy (v : SettingValue) : bool :=
  match v with
  | VBool b => b
  | VNum n => num_truthy n
  | VStr s => JS.truthy s
  end.

(** [n || 0]. *)
Definition num_or_zero (n : number) : number :=
  if num_truthy n then n else num_zero.

(** The [switch (setting.type)] that coerces the default. *)
Definition defaultValue (setting : ModSetting.t) : json :=
  let d := ModSetting.default setting in
  match ModSetting.type setting with
  | Tbool => JBool (value_truthy d)
  | Tint => JNum (num_or_zero (parseInt10 (value_to_string d)))
  | Tfloat => JNum (num_or_zero (parseFloat (value_to_string d)))
  | Tstring => JStr (value_to_string d)
  end.

Definition json_of_setting (setting : ModSetting.t) : json :=
  JObj [("name", JStr (ModSetting.name setting));
        ("description", JStr (ModSetting.description setting));
        ("type", JStr (type_tag (ModSetting.type setting)));
        ("default", defaultValue setting)].

Definition settingsObject (l : list ModSetting.t) : list (string * json) :=
  fold_left
    (fun o setting =>
       obj_assign (ModSetting.key setting) (json_of_setting setting) o)
    l [].

(** The object [modJson] as it stands when it is printed. *)
Definition modJson (data : ModData.t) : list (string * json) :=
  let o :=
    [("geode", JStr (JS.or_else (ModData.geodeVersion data) "2.0.0-beta.26"));
     ("gd", JObj (map (fun kv => (fst kv, JStr (snd kv))) (gd data)));
     ("id", JStr (JS.or_else (ModData.id data) "com.developer.modname"));
     ("name", JStr (JS.or_else (ModData.name data) "My Awesome Mod"));
     ("version", JStr (JS.or_else (ModData.version data) "v1.0.0"));
     ("developer", JStr (JS.or_else (ModData.developer data) "Your Name"));
     ("description",
      JStr (JS.or_else (ModData.description data) "A new mod for Geometry Dash"))]
  in
  let o := if JS.truthy_opt (ModData.logo data)
           then obj_set "icon" (JStr "logo.png") o else o in
  let o := if JS.truthy (ModData.repository data)
           then obj_set "repository" (JStr (ModData.repository data)) o else o in
  let o := if ModData.providesApi data then obj_set "api" (JBool true) o else o in
  let o := if ModData.earlyLoad data
           then obj_set "early-load" (JBool true) o else o in
  let o := if JS.truthy (ModData.tags data)
           then obj_set "tags" (JArr (map JStr (tokens (ModData.tags data)))) o
           else o in
  let o := if JS.truthy (ModData.dependencies data)
           then let dependencies := dependenciesOf data in
                if (0 <? length dependencies)%nat
                then obj_set "dependencies"
                       (JArr (map json_of_dependency dependencies)) o
                else o
           else o in
  let o := if (0 <? length (ModData.settings data))%nat
           then obj_set "settings"
                  (JObj (settingsObject (ModData.settings data))) o
           else o in
  o.

Definition generateModJson (data : ModData.t) : string :=
  JSON_stringify (JObj (modJson data)) 4.

End Generator.

Section Templates.
Context `{NUM : JSNumber}.

Definition generateCMakeLists (data : ModData.t) : string :=
  "cmake_minimum_required(VERSION 3.13)

# Get Geode and its settings
find_package(Geode REQUIRED)

# Add your project, its sources and link it to Geode
add_geode_mod("
    +:+ JS.or_else (ModData.id data) "com.developer.modname"
    +:+ "
	VERSION "
    +:+ JS.or_else (ModData.version data) "v1.0.0"
    +:+ "
	ID "
    +:+ JS.dq
    +:+ JS.or_else (ModData.id data) "com.developer.modname"
    +:+ JS.dq
    +:+ "
	SOURCES
		resources/main.cpp
	RESOURCES
		assets
)
".

Definition generateMenuLayerCpp (data : ModData.t) : string :=
  let modName := JS.or_else (ModData.name data) "My Awesome Mod" in
  "#include <Geode/Geode.hpp>
#include <Geode/modify/MenuLayer.hpp>

using namespace geode::prelude;

// Adds a label to the main menu
class $modify(MyMenuLayer, MenuLayer) {
	bool init() {
		if (!MenuLayer::init()) {
			return false;
		}

		try {
			// Log that the mod is initializing
			log::info("
    +:+ JS.dq
    +:+ "Initializing "
    +:+ modName
    +:+ JS.dq
    +:+ ");

			auto myLabel = CCLabelBMFont::create("
    +:+ JS.dq
    +:+ "Hello from "
    +:+ modName
    +:+ "!"
    +:+ JS.dq
    +:+ ", "
    +:+ JS.dq
    +:+ "bigFont.fnt"
    +:+ JS.dq
    +:+ ");

			auto winSize = CCDirector::sharedDirector()->getWinSize();
			myLabel->setPosition(winSize.width / 2, winSize.height / 2 + 100);
			myLabel->setScale(0.7f);
			this->addChild(myLabel);
		} catch (const std::exception& e) {
			geode::log::error("
    +:+ JS.dq
    +:+ "An error occurred during "
    +:+ modName
    +:+ " initialization: {}"
    +:+ JS.dq
    +:+ ", e.what());
		}

		return true;
	}
};
".

Definition generatePlayLayerCpp (data : ModData.t) : string :=
  "#include <Geode/Geode.hpp>
#include <Geode/modify/PlayLayer.hpp>

using namespace geode::prelude;

// Shows a notification when the player dies
class $modify(PlayLayer) {
    void onQuit() {
        // Call the original function so the game doesn't crash
        PlayLayer::onQuit();

        try {
            // Log to the console and show a notification
            log::info("
    +:+ JS.dq
    +:+ "Player quit level, showing notification."
    +:+ JS.dq
    +:+ ");
            Notification::create("
    +:+ JS.dq
    +:+ "You died!"
    +:+ JS.dq
    +:+ ", CCSprite::create("
    +:+ JS.dq
    +:+ "GJ_deleteBtn_001.png"
    +:+ JS.dq
    +:+ "))->show();
        } catch (const std::exception& e) {
            geode::log::error("
    +:+ JS.dq
    +:+ "An error occurred in PlayLayer::onQuit hook: {}"
    +:+ JS.dq
    +:+ ", e.what());
        }
    }
};
".

(** The fragment one setting adds to the settings popup, by its type. *)
Definition settingFragment (modId : string) (index : nat)
    (setting : ModSetting.t) : string :=
  let yPos :=
    "contentSize.height - 40.f - (40.f * "
    +:+ pretty index
    +:+ ")" in
  match ModSetting.type setting with
  | Tbool =>
    "
                    auto toggle_"
    +:+ pretty index
    +:+ " = geode::Checkbox::create("
    +:+ JS.dq
    +:+ ModSetting.name setting
    +:+ JS.dq
    +:+ ", nullptr);
                    popup->addToggle(toggle_"
    +:+ pretty index
    +:+ ", "
    +:+ JS.dq
    +:+ modId
    +:+ JS.dq
    +:+ ", "
    +:+ JS.dq
    +:+ ModSetting.key setting
    +:+ JS.dq
    +:+ ");
                    toggle_"
    +:+ pretty index
    +:+ "->setPosition(contentSize.width / 2, "
    +:+ yPos
    +:+ ");
                    popup->getBJSPopup()->m_mainLayer->addChild(toggle_"
    +:+ pretty index
    +:+ ");
                    "
  | Tint =>
    "
                    auto input_label_"
    +:+ pretty index
    +:+ " = CCLabelBMFont::create("
    +:+ JS.dq
    +:+ ModSetting.name setting
    +:+ JS.dq
    +:+ ", "
    +:+ JS.dq
    +:+ "bigFont.fnt"
    +:+ JS.dq
    +:+ ");
                    input_label_"
    +:+ pretty index
    +:+ "->setScale(0.5f);
                    input_label_"
    +:+ pretty index
    +:+ "->setPosition(contentSize.width / 2 - 80.f, "
    +:+ yPos
    +:+ ");
                    popup->getBJSPopup()->m_mainLayer->addChild(input_label_"
    +:+ pretty index
    +:+ ");

                    auto input_"
    +:+ pretty index
    +:+ " = geode::InputNode::create(100.f, "
    +:+ JS.dq
    +:+ "Number"
    +:+ JS.dq
    +:+ ");
                    input_"
    +:+ pretty index
    +:+ "->getInput()->setAllowedChars("
    +:+ JS.dq
    +:+ "0123456789-"
    +:+ JS.dq
    +:+ ");
                    popup->addInput(input_"
    +:+ pretty index
    +:+ ", "
    +:+ JS.dq
    +:+ modId
    +:+ JS.dq
    +:+ ", "
    +:+ JS.dq
    +:+ ModSetting.key setting
    +:+ JS.dq
    +:+ ");
                    input_"
    +:+ pretty index
    +:+ "->setPosition(contentSize.width / 2 + 30.f, "
    +:+ yPos
    +:+ ");
                    popup->getBJSPopup()->m_mainLayer->addChild(input_"
    +:+ pretty index
    +:+ ");
                    "
  | Tfloat =>
    "
                    auto input_label_"
    +:+ pretty index
    +:+ " = CCLabelBMFont::create("
    +:+ JS.dq
    +:+ ModSetting.name setting
    +:+ JS.dq
    +:+ ", "
    +:+ JS.dq
    +:+ "bigFont.fnt"
    +:+ JS.dq
    +:+ ");
                    input_label_"
    +:+ pretty index
    +:+ "->setScale(0.5f);
                    input_label_"
    +:+ pretty index
    +:+ "->setPosition(contentSize.width / 2 - 80.f, "
    +:+ yPos
    +:+ ");
                    popup->getBJSPopup()->m_mainLayer->addChild(input_label_"
    +:+ pretty index
    +:+ ");

                    auto input_"
    +:+ pretty index
    +:+ " = geode::InputNode::create(100.f, "
    +:+ JS.dq
    +:+ "Number"
    +:+ JS.dq
    +:+ ");
                    input_"
    +:+ pretty index
    +:+ "->getInput()->setAllowedChars("
    +:+ JS.dq
    +:+ "0123456789.-"
    +:+ JS.dq
    +:+ ");
                    popup->addInput(input_"
    +:+ pretty index
    +:+ ", "
    +:+ JS.dq
    +:+ modId
    +:+ JS.dq
    +:+ ", "
    +:+ JS.dq
    +:+ ModSetting.key setting
    +:+ JS.dq
    +:+ ");
                    input_"
    +:+ pretty index
    +:+ "->setPosition(contentSize.width / 2 + 30.f, "
    +:+ yPos
    +:+ ");
                    popup->getBJSPopup()->m_mainLayer->addChild(input_"
    +:+ pretty index
    +:+ ");
                    "
  | Tstring =>
    "
                    auto input_label_"
    +:+ pretty index
    +:+ " = CCLabelBMFont::create("
    +:+ JS.dq
    +:+ ModSetting.name setting
    +:+ JS.dq
    +:+ ", "
    +:+ JS.dq
    +:+ "bigFont.fnt"
    +:+ JS.dq
    +:+ ");
                    input_label_"
    +:+ pretty index
    +:+ "->setScale(0.5f);
                    input_label_"
    +:+ pretty index
    +:+ "->setPosition(contentSize.width / 2 - 80.f, "
    +:+ yPos
    +:+ ");
                    popup->getBJSPopup()->m_mainLayer->addChild(input_label_"
    +:+ pretty index
    +:+ ");

                    auto input_"
    +:+ pretty index
    +:+ " = geode::InputNode::create(150.f, "
    +:+ JS.dq
    +:+ "Text"
    +:+ JS.dq
    +:+ ");
                    popup->addInput(input_"
    +:+ pretty index
    +:+ ", "
    +:+ JS.dq
    +:+ modId
    +:+ JS.dq
    +:+ ", "
    +:+ JS.dq
    +:+ ModSetting.key setting
    +:+ JS.dq
    +:+ ");
                    input_"
    +:+ pretty index
    +:+ "->setPosition(contentSize.width / 2 + 55.f, "
    +:+ yPos
    +:+ ");
                    popup->getBJSPopup()->m_mainLayer->addChild(input_"
    +:+ pretty index
    +:+ ");
                    "
  end.

(** [data.settings.forEach((setting, index) => ...)], appending to the
    text accumulated so far. *)
Fixpoint settingsUi (modId : string) (index : nat) (l : list ModSetting.t)
    (settingsUiGeneration : string) : string :=
  match l with
  | [] => settingsUiGeneration
  | setting :: r =>
      settingsUi modId (S index) r
        (settingsUiGeneration +:+ settingFragment modId index setting)
  end.

Definition is_bool_setting (s : ModSetting.t) : bool :=
  match ModSetting.type s with Tbool => true | _ => false end.

Definition generateSettingsLayerCpp (data : ModData.t) : string :=
  let modId := JS.or_else (ModData.id data) "com.developer.modname" in
  let modName := JS.or_else (ModData.name data) "My Mod" in
  let menuLayerModification :=
    "
// This adds the "
    +:+ JS.dq
    +:+ "Hello World"
    +:+ JS.dq
    +:+ " label to the main menu, but only if a boolean setting is enabled.
class $modify(MyMenuLayerWithSettings, MenuLayer) {
	bool init() {
		if (!MenuLayer::init()) {
			return false;
		}
		
		try {
" in
  let menuLayerModification :=
    match List.find is_bool_setting (ModData.settings data) with
    | Some firstBoolSetting =>
        menuLayerModification +:+
        ("			// Check if the setting is enabled
			if (Mod::get()->getSettingValue<bool>("
    +:+ JS.dq
    +:+ ModSetting.key firstBoolSetting
    +:+ JS.dq
    +:+ ")) {
				log::info("
    +:+ JS.dq
    +:+ "Setting '"
    +:+ ModSetting.key firstBoolSetting
    +:+ "' is enabled, adding label."
    +:+ JS.dq
    +:+ ");
				auto myLabel = CCLabelBMFont::create("
    +:+ JS.dq
    +:+ "Hello from "
    +:+ modName
    +:+ "!"
    +:+ JS.dq
    +:+ ", "
    +:+ JS.dq
    +:+ "bigFont.fnt"
    +:+ JS.dq
    +:+ ");
				auto winSize = CCDirector::sharedDirector()->getWinSize();
				myLabel->setPosition(winSize.width / 2, winSize.height / 2 + 100);
				myLabel->setScale(0.7f);
				this->addChild(myLabel);
			}
")
    | None =>
        menuLayerModification +:+
        ("			// You can add logic here that depends on your settings.
			// For example, create a boolean setting in the form to toggle this label.
			auto myLabel = CCLabelBMFont::create("
    +:+ JS.dq
    +:+ "Hello from "
    +:+ modName
    +:+ "!"
    +:+ JS.dq
    +:+ ", "
    +:+ JS.dq
    +:+ "bigFont.fnt"
    +:+ JS.dq
    +:+ ");
			auto winSize = CCDirector::sharedDirector()->getWinSize();
			myLabel->setPosition(winSize.width / 2, winSize.height / 2 + 100);
			myLabel->setScale(0.7f);
			this->addChild(myLabel);
")
    end in
  let menuLayerModification :=
    menuLayerModification +:+
    ("		} catch (const std::exception& e) {
			geode::log::error("
    +:+ JS.dq
    +:+ "An error occurred in MyMenuLayerWithSettings::init: {}"
    +:+ JS.dq
    +:+ ", e.what());
		}

		return true;
	}
};") in
  let settingsUiGeneration :=
    if (0 <? length (ModData.settings data))%nat
    then settingsUi modId 0 (ModData.settings data) EmptyString
    else
    "
                    auto label = CCLabelBMFont::create("
    +:+ JS.dq
    +:+ "This mod has no settings."
    +:+ JS.dq
    +:+ ", "
    +:+ JS.dq
    +:+ "bigFont.fnt"
    +:+ JS.dq
    +:+ ");
                    label->setPosition(contentSize.width / 2, contentSize.height / 2);
                    label->setScale(0.6f);
                    popup->getBJSPopup()->m_mainLayer->addChild(label);
        " in
  "#include <Geode/Geode.hpp>
#include <Geode/modify/MenuLayer.hpp>
#include <Geode/ui/GeodeUI.hpp>
#include <Geode/ui/InputNode.hpp>
#include <Geode/ui/Checkbox.hpp>

using namespace geode::prelude;
"
    +:+ menuLayerModification
    +:+ "

// This function is called when the mod is loaded.
// It is used to create the settings UI.
$execute {
    // We use onModsLoaded instead of just running the code to make sure
    // the mod list is ready and the settings button can be created.
    geode::ui::onModsLoaded([] {
        geode::ui::createSettingsPopup(
            "
    +:+ JS.dq
    +:+ modId
    +:+ JS.dq
    +:+ ",
            [](auto popup) {
                // This is the function that creates the UI.
                // It is called every time the user opens your settings.
                try {
                    log::info("
    +:+ JS.dq
    +:+ "Creating settings UI for "
    +:+ modId
    +:+ JS.dq
    +:+ ");
                    // First, we get the content size of the popup.
                    // This is used to position our elements.
                    auto contentSize = popup->getBJSPopup()->m_mainLayer->getContentSize();
                    
                    // The following UI is generated automatically based on your settings.
                    "
    +:+ settingsUiGeneration
    +:+ "

                    return true;
                } catch (const std::exception& e) {
                    geode::log::error("
    +:+ JS.dq
    +:+ "Failed to create settings UI for "
    +:+ modId
    +:+ ": {}"
    +:+ JS.dq
    +:+ ", e.what());
                    return false; // Indicate failure
                }
            }
        );
    });
}
".

Definition generateMainCpp (data : ModData.t) : string :=
  match ModData.cppTemplate data with
  | playlayer => generatePlayLayerCpp data
  | settings_template => generateSettingsLayerCpp data
  | menulayer => generateMenuLayerCpp data
  end.

Definition generateCIWorkflow : string :=
  "name: Build Mod

on: [push, pull_request]

jobs:
  build:
    strategy:
      matrix:
        os: [windows-latest, macos-latest]

    runs-on: ${{ matrix.os }}

    steps:
      - uses: actions/checkout@v3
        with:
          submodules: true

      - name: Setup Geode
        uses: geode-sdk/setup-geode-sdk@v1
        with:
          # This is the token for your PERSONAL ACCESS TOKEN
          # You can get one here: https://github.com/settings/tokens
          # You only need the 'repo' scope
          token: ${{ secrets.GEODE_SDK_TOKEN }}

      - name: Build
        run: geode build

      - name: Upload Artifact
        uses: actions/upload-artifact@v3
        with:
          name: ${{ matrix.os }} Build
          path: build/*.geode
".

Definition generateReadme (data : ModData.t) : string :=
  "# "
    +:+ JS.or_else (ModData.name data) "My Awesome Mod"
    +:+ "

A new mod for Geometry Dash, created by "
    +:+ JS.or_else (ModData.developer data) "Your Name"
    +:+ ".

"
    +:+ JS.or_else (ModData.description data) "A brief summary of what your mod does."
    +:+ "

## Project Structure

*   `mod.json`: The manifest file for your mod. Contains metadata like the name, developer, version, and dependencies.
*   `CMakeLists.txt`: The build script for your mod.
*   `resources/`: Contains your C++ source code.
    *   `main.cpp`: The main entry point for your mod.
*   `assets/`: Contains assets for your mod (spritesheets, images, sounds, etc.).
*   `LICENSE`: The license for your mod.
*   `CONTRIBUTING.md`: Guidelines for contributing to your mod.

This mod was generated with the [Geode Mod Creator](https://geode-sdk.org/creator).
".

Definition generateGitIgnore : string :=
  "build/
bin/
*.geode
*.dll
*.dylib
*.so
*.zip
*.rar
*.7z

# Visual Studio
.vs/
*.VC.db
*.VC.opendb
*.*.user

# CLion
.idea/

# VSCode
.vscode/
".

(** [year] is what [new Date().getFullYear()] returned. *)
Definition generateLicense (year : Z) (data : ModData.t) : string :=
  let developer := JS.or_else (ModData.developer data) "Your Name" in
  "MIT License

Copyright (c) "
    +:+ pretty year
    +:+ " "
    +:+ developer
    +:+ "

Permission is hereby granted, free of charge, to any person obtaining a copy
of this software and associated documentation files (the "
    +:+ JS.dq
    +:+ "Software"
    +:+ JS.dq
    +:+ "), to deal
in the Software without restriction, including without limitation the rights
to use, copy, modify, merge, publish, distribute, sublicense, and/or sell
copies of the Software, and to permit persons to whom the Software is
furnished to do so, to the following conditions:

The above copyright notice and this permission notice shall be included in all
copies or substantial portions of the Software.

THE SOFTWARE IS PROVIDED "
    +:+ JS.dq
    +:+ "AS IS"
    +:+ JS.dq
    +:+ ", WITHOUT WARRANTY OF ANY KIND, EXPRESS OR
IMPLIED, INCLUDING BUT NOT LIMITED TO THE WARRANTIES OF MERCHANTABILITY,
FITNESS FOR A PARTICULAR PURPOSE AND NONINFRINGEMENT. IN NO EVENT SHALL THE
AUTHORS OR COPYRIGHT HOLDERS BE LIABLE FOR ANY CLAIM, DAMAGES OR OTHER
LIABILITY, WHETHER IN AN ACTION OF CONTRACT, TORT OR OTHERWISE, ARISING FROM,
OUT OF OR IN CONNECTION WITH THE SOFTWARE OR THE USE OR OTHER DEALINGS IN THE
SOFTWARE.
".

Definition generateContributingMd (data : ModData.t) : string :=
  let modName := JS.or_else (ModData.name data) "this project" in
  let repoUrl :=
    if JS.truthy (ModData.repository data)
    then JS.strip_suffix ".git" (ModData.repository data)
    else "https://github.com/your/repo" in
  let issuesUrl :=
    if JS.truthy (ModData.repository data)
    then repoUrl
    +:+ "/issues" else "#" in
  let newIssueUrl :=
    if JS.truthy (ModData.repository data)
    then repoUrl
    +:+ "/issues/new" else "#" in
  "# Contributing to "
    +:+ modName
    +:+ "

First off, thank you for considering contributing to "
    +:+ modName
    +:+ "! It's people like you that make the Geode modding community such a great place.

## How Can I Contribute?

### Reporting Bugs

- Ensure the bug was not already reported by searching on GitHub under [Issues]("
    +:+ issuesUrl
    +:+ ").
- If you're unable to find an open issue addressing the problem, [open a new one]("
    +:+ newIssueUrl
    +:+ "). Be sure to include a **title and clear description**, as much relevant information as possible, and a **code sample or an executable test case** demonstrating the expected behavior that is not occurring.

### Suggesting Enhancements

- Open a new issue to discuss your new feature idea.
- Be sure to provide a clear and detailed explanation of the feature, its potential benefits, and any implementation details you have in mind.

### Pull Requests

1. Fork the repo and create your branch from `main`.
2. If you've added code that should be tested, add tests.
3. Ensure the test suite passes.
4. Make sure your code lints.
5. Issue that pull request!

## Styleguides

Please try to follow the coding style of the existing codebase. This makes it easier for everyone to read and understand the code.

We look forward to your contributions!
".

End Templates.

(** ** The file-tree store ([App.tsx]) *)

Section Store.
Context `{NUM : JSNumber} `{PR : !JSONPrinter}.

(** [modData.logo.split(',')[1]]: the text after the first comma of the
    data URL, [undefined] when there is no comma. *)
Definition logoBase64 (logo : string) : option string :=
  JS.split "," logo !! 1%nat.

(** The test of the loop that keeps the assets of the previous tree. *)
Definition keepAsset (path : string) : bool :=
  JS.startsWith "assets/" path
  && negb (String.eqb path "assets/logo.png")
  && negb (String.eqb path "assets/.gitkeep").

(** The object literal [generateFiles] starts from. *)
Definition baseFiles (year : Z) (modData : ModData.t) : GeneratedFiles :=
  list_to_map
    [("mod.json", Some (generateModJson modData));
     ("CMakeLists.txt", Some (generateCMakeLists modData));
     ("src/main.cpp", Some (generateMainCpp modData));
     ("README.md", Some (generateReadme modData));
     (".gitignore", Some generateGitIgnore);
     ("LICENSE", Some (generateLicense year modData));
     ("CONTRIBUTING.md", Some (generateContributingMd modData));
     ("assets/.gitkeep", Some EmptyString)].

(** The body of [generateFiles] up to the loop over the previous tree: the
    output of the generator for [modData] alone. *)
Definition generatorOutput (year : Z) (modData : ModData.t) : GeneratedFiles :=
  let files := baseFiles year modData in
  let files :=
    if ModData.includeCi modData
    then <[".github/workflows/main.yml" := Some generateCIWorkflow]> files
    else files in
  let files :=
    match ModData.logo modData with
    | Some logo =>
        if JS.truthy logo
        then <["assets/logo.png" := logoBase64 logo]> files
        else if JS.truthy_opt (mjoin (files !! "assets/logo.png"))
             then delete "assets/logo.png" files else files
    | None =>
        if JS.truthy_opt (mjoin (files !! "assets/logo.png"))
        then delete "assets/logo.png" files else files
    end in
  files.

(** One round of [for (const path in generatedFiles)]. *)
Definition keepStep (path : string) (content : option string)
    (files : GeneratedFiles) : GeneratedFiles :=
  if keepAsset path then <[path := content]> files else files.

(** [generateFiles], with the tree it hands to [setGeneratedFiles] as its
    result; [generatedFiles] is the current tree ([None] for [null]). *)
Definition generateFiles (year : Z) (modData : ModData.t)
    (generatedFiles : option GeneratedFiles) : GeneratedFiles :=
  let files := generatorOutput year modData in
  match generatedFiles with
  | Some previous => map_fold keepStep files previous
  | None => files
  end.

(** The effect that follows every change of the form ([regenerate] in the
    specification): the new value of [generatedFiles]. *)
Definition regenerate (year : Z) (modData : ModData.t)
    (generatedFiles : option GeneratedFiles) : option GeneratedFiles :=
  if JS.truthy (ModData.id modData)
     && JS.truthy (ModData.name modData)
     && JS.truthy (ModData.developer modData)
  then Some (generateFiles year modData generatedFiles)
  else None.

(** [handleFileContentChange] ([patchOne]). *)
Definition handleFileContentChange (path newContent : string)
    (prev : option GeneratedFiles) : option GeneratedFiles :=
  match prev with
  | Some files => Some (<[path := Some newContent]> files)
  | None => None
  end.

End Store.

(** An entry of an AI file batch; a field the response leaves out is
    [None]. *)
Record AiFile := { filePath : option string; fileContent : option string }.

(** [newFiles[path] = content] for a path that is not fixed in the source
    and a string [content]: the name [__proto__], unless it is an own
    property of [newFiles], reaches the setter of [Object.prototype],
    which ignores a string; every other name becomes or stays an own
    property. *)
Definition assignFile (path : string) (content : option string)
    (newFiles : GeneratedFiles) : GeneratedFiles :=
  if String.eqb path "__proto__"
     && match newFiles !! path with Some _ => false | None => true end
  then newFiles
  else <[path := content]> newFiles.

(** The callback of [parsedJson.files.forEach]. *)
Definition mergeStep (newFiles : GeneratedFiles) (file : AiFile)
  : GeneratedFiles :=
  match filePath file with
  | Some path =>
      if JS.truthy path && JS.truthy_opt (fileContent file)
      then assignFile path (fileContent file) newFiles
      else newFiles
  | None => newFiles
  end.

(** The update of [generatedFiles] for a response [{files: [...]}]
    ([mergeMany] in the specification). *)
Definition mergeMany (files : list AiFile) (prev : option GeneratedFiles)
  : GeneratedFiles :=
  let newFiles := default ∅ prev in
  fold_left mergeStep files newFiles.

(** The class [[a-z0-9-_.]] with the flag [i]. *)
Definition fileNameChar (a : ascii) : bool :=
  JS.in_range 97 122 a || JS.in_range 65 90 a || JS.in_range 48 57 a
  || Ascii.eqb a "-" || Ascii.eqb a "_" || Ascii.eqb a ".".

Definition sanitizeFileName (fileName : string) : string :=
  JS.toLowerCase
    (JS.map_chars (fun a => if fileNameChar a then a else "-"%char)
       (if JS.endsWith ".png" fileName then fileName
        else fileName +:+ ".png")).

(** The update of [generatedFiles] after the tool call
    [generateImageAndPlist]. *)
Definition mergeAsset (fileName base64ImageBytes plistContent : string)
    (prev : option GeneratedFiles) : GeneratedFiles :=
  let newFiles := default ∅ prev in
  let sanitizedFileName := sanitizeFileName fileName in
  let plistFileName := JS.replaceFirst ".png" ".plist" sanitizedFileName in
  let newFiles := delete "assets/.gitkeep" newFiles in
  let newFiles :=
    <["assets/" +:+ sanitizedFileName := Some base64ImageBytes]> newFiles in
  let newFiles :=
    <["assets/" +:+ plistFileName := Some plistContent]> newFiles in
  newFiles.

(** ** The archive ([handleDownload]) *)

(** What [zip.file] was given: text, or base64 to decode. *)
Inductive ZipData :=
| ZipText (content : string)
| ZipBase64 (content : string).

Definition textSuffixes : list string :=
  [".json"; ".txt"; ".cpp"; ".md"; ".yml"; ".gitignore"; "LICENSE";
   ".gitkeep"; ".plist"].

Definition isTextFile (path : string) : bool :=
  existsb (fun ext => JS.endsWith ext path) textSuffixes.

Definition addFileToZip (path : string) (content : option string)
    (zip : gmap string ZipData) : gmap string ZipData :=
  match content with
  | None => zip
  | Some content =>
      if negb (isTextFile path)
      then <[path := ZipBase64 content]> zip
      else <[path := ZipText content]> zip
  end.

(** The loop of [handleDownload] over the tree. *)
Definition zipFiles (generatedFiles : GeneratedFiles) : gmap string ZipData :=
  map_fold addFileToZip ∅ generatedFiles.

(** ** The settings form ([components/ModForm.tsx]) *)

Section Form.
Context `{NUM : JSNumber}.

(** A field of a setting with its new value: the arguments [field] and
    [value] of [handleSettingChange]. *)
Inductive SettingChange :=
| SetId (v : string)
| SetKey (v : string)
| SetName (v : string)
| SetDescription (v : string)
| SetType (v : ModSettingType)
| SetDefault (v : SettingValue).

(** The value the [switch] on the new type stores as default. *)
Definition resetDefault (t : ModSettingType) : SettingValue :=
  match t with
  | Tbool => VBool false
  | Tint => VNum num_zero
  | Tfloat => VNum num_zero
  | Tstring => VStr EmptyString
  end.

(** [{ ...s, [field]: value }], with the reset that follows a new type. *)
Definition updatedSetting (c : SettingChange) (s : ModSetting.t)
  : ModSetting.t :=
  let id := ModSetting.id s in
  let key := ModSetting.key s in
  let name := ModSetting.name s in
  let description := ModSetting.description s in
  let type := ModSetting.type s in
  let default := ModSetting.default s in
  match c with
  | SetId v => ModSetting.mk v key name description type default
  | SetKey v => ModSetting.mk id v name description type default
  | SetName v => ModSetting.mk id key v description type default
  | SetDescription v => ModSetting.mk id key name v type default
  | SetType v => ModSetting.mk id key name description v (resetDefault v)
  | SetDefault v => ModSetting.mk id key name description type v
  end.

Definition newSettings (id : string) (c : SettingChange)
    (l : list ModSetting.t) : list ModSetting.t :=
  map (fun s => if String.eqb (ModSetting.id s) id then updatedSetting c s else s)
    l.

(** [handleSettingChange]: the form data handed to [onFormChange]. *)
Definition handleSettingChange (id : string) (c : SettingChange)
    (modData : ModData.t) : ModData.t :=
  ModData.mk (ModData.id modData) (ModData.name modData)
    (ModData.version modData) (ModData.developer modData)
    (ModData.description modData) (ModData.logo modData)
    (ModData.dependencies modData) (ModData.repository modData)
    (ModData.cppTemplate modData) (ModData.includeCi modData)
    (ModData.platforms modData) (ModData.gdVersion modData)
    (ModData.geodeVersion modData) (ModData.tags modData)
    (ModData.providesApi modData) (ModData.earlyLoad modData)
    (newSettings id c (ModData.settings modData)).

End Form.

(** The identifier pattern [/^[a-z0-9-]+(\.[a-z0-9-]+)+$/]. *)
Definition idChar (a : ascii) : bool :=
  JS.in_range 97 122 a || JS.in_range 48 57 a || Ascii.eqb a "-".

Fixpoint all_chars (f : ascii -> bool) (s : string) : bool :=
  match s with
  | EmptyString => true
  | String a r => f a && all_chars f r
  end.

Definition idRegexTest (id : string) : bool :=
  let segments := JS.split "." id in
  (2 <=? length segments)%nat
  && forallb (fun seg => JS.truthy seg && all_chars idChar seg) segments.

(** Whether the form shows the identifier hint ([idError] non-empty). *)
Definition idError (id : string) : bool :=
  JS.truthy id && negb (idRegexTest id).

(** ** Vocabulary of the specification *)

(** [c] occurs in [s]. *)
Fixpoint includes (c : ascii) (s : string) : bool :=
  match s with
  | EmptyString => false
  | String a r => Ascii.eqb a c || includes c r
  end.

(** The last character of a string. *)
Fixpoint last_char (s : string) : option ascii :=
  match s with
  | EmptyString => None
  | String a EmptyString => Some a
  | String _ r => last_char r
  end.

(** An entry of a batch that passes the guard of [mergeStep]: both fields
    present and non-empty. *)
Definition complete (file : AiFile) : bool :=
  JS.truthy_opt (filePath file) && JS.truthy_opt (fileContent file).

(** The platform flag a key of the platform map stands for. *)
Definition platformEnabled (p : Platforms.t) (k : string) : bool :=
  if String.eqb k "win" then Platforms.win p
  else if String.eqb k "mac" then Platforms.mac p
  else if String.eqb k "android" then Platforms.android p
  else if String.eqb k "ios" then Platforms.ios p
  else false.

(** The name of an entry: what follows the last slash of its path. *)
Definition baseName (path : string) : string :=
  JS.substringFrom path (JS.lastIndexOf "/" path + 1).

(** The extension of an entry: its name from the last dot on, empty when
    the name has no dot. *)
Definition extension (path : string) : string :=
  let name := baseName path in
  let dot := JS.lastIndexOf "." name in
  if 0 <=? dot then JS.substringFrom name dot else EmptyString.

Definition textExtensions : list string :=
  [".json"; ".txt"; ".cpp"; ".md"; ".yml"; ".gitignore"; ".plist"].

(** The text entries in the words of the specification: the extension is
    one of the seven listed, or the entry is named exactly [LICENSE] or
    [.gitkeep]. *)
Definition spec_isTextFile (path : string) : bool :=
  existsb (String.eqb (extension path)) textExtensions
  || String.eqb (baseName path) "LICENSE"
  || String.eqb (baseName path) ".gitkeep".

(** ** An instance of the runtime, to run the model on examples

    Numbers are integers with [None] for NaN; [parseFloat] reads the
    integer part only.  The printer is compact and escapes nothing. *)

Module Run.

Fixpoint digits (s : string) (acc : option Z) : option Z :=
  match s with
  | EmptyString => acc
  | String a r =>
      match Ascii.is_nat a with
      | Some d => digits r (Some (10 * default 0 acc + Z.of_nat d))
      | None => acc
      end
  end.

Definition parseInt (s : string) : option Z :=
  match JS.trimStart s with
  | String "-" r => Z.opp <$> digits r None
  | String "+" r => digits r None
  | r => digits r None
  end.

Definition numbers : JSNumber := {|
  number := option Z;
  num_zero := Some 0;
  parseInt10 := parseInt;
  parseFloat := parseInt;
  num_truthy := fun n => match n with Some z => negb (z =? 0) | None => false end;
  num_to_string := fun n => match n with Some z => pretty z | None => "NaN" end
|}.

Fixpoint print (j : @json numbers) : string :=
  match j with
  | JBool true => "true"
  | JBool false => "false"
  | JNum n => @num_to_string numbers n
  | JStr s => JS.dq +:+ s +:+ JS.dq
  | JArr l =>
      "[" +:+ JS.join "," (map print l) +:+ "]"
  | JObj fields =>
      "{" +:+ JS.join ","
                (map (fun kv => JS.dq +:+ fst kv +:+ JS.dq +:+ ":" +:+ print (snd kv))
                   fields) +:+ "}"
  end.

Definition printer : @JSONPrinter numbers := {|
  JSON_stringify := fun j _ => print j
|}.

Definition setting (id key name description : string) (type : ModSettingType)
    (default : @SettingValue numbers) : @ModSetting.t numbers :=
  ModSetting.mk id key name description type default.

(** The form data [App] starts from, with the three required fields as
    given. *)
Definition form (id name developer : string) : @ModData.t numbers :=
  ModData.mk id name "v1.0.0" developer EmptyString None EmptyString
    EmptyString menulayer false (Platforms.mk true true true false) "*"
    "2.0.0-beta.26" EmptyString false false
    [setting "setting-initial-1" "welcome_message" "Welcome Message"
       "The message to display on startup" Tstring (VStr "Hello, Geode!")].

Definition modData : @ModData.t numbers := form "com.dev.mod" "Mod" "Dev".

End Run.

(** ** Further parts of the sources *)

(** [s.includes(p)] for a string pattern. *)
Fixpoint includesStr (p s : string) : bool :=
  JS.startsWith p s
  || match s with
     | EmptyString => false
     | String _ r => includesStr p r
     end.

(** [isImageFile] of [components/CodeWorkspace.tsx]: what the editor shows
    as a picture. *)
Definition isImageFile (selectedFile : string) : bool :=
  JS.endsWith ".png" selectedFile.

(** [files[selectedFile] ?? ''] of the same component. *)
Definition currentFileContent (files : GeneratedFiles) (selectedFile : string)
  : string :=
  default EmptyString (mjoin (files !! selectedFile)).

(** The names every object has from [Object.prototype]; each is a function
    or, for [__proto__], the prototype, so truthy. *)
Definition prototypeNames : list string :=
  ["constructor"; "__defineGetter__"; "__defineSetter__"; "hasOwnProperty";
   "__lookupGetter__"; "__lookupSetter__"; "isPrototypeOf";
   "propertyIsEnumerable"; "toString"; "valueOf"; "__proto__";
   "toLocaleString"].

(** Truthiness of [files[name]]: the own property when there is one, else
    what [Object.prototype] has under the name. *)
Definition memberTruthy (files : GeneratedFiles) (name : string) : bool :=
  match files !! name with
  | Some content => JS.truthy_opt content
  | None => existsb (String.eqb name) prototypeNames
  end.

(** The effect of [CodeWorkspace] that keeps a file selected: the new
    value of [selectedFile].  [fileList] is [Object.keys(files)], in the
    order of the object. *)
Definition selectFile (files : GeneratedFiles) (fileList : list string)
    (selectedFile : string) : string :=
  if negb (JS.truthy selectedFile)
     || negb (memberTruthy files selectedFile)
  then if existsb (String.eqb "mod.json") fileList then "mod.json"
       else JS.or_else (default EmptyString (head fileList)) EmptyString
  else selectedFile.

(** The update of [generatedFiles] for the old single-file response. *)
Definition mergeLegacy (path content : string) (prev : option GeneratedFiles)
  : GeneratedFiles :=
  let newFiles := default ∅ prev in
  assignFile path (Some content) newFiles.

(** What [handleSendMessage] reads in the parsed response: [files] when it
    is an array, [filePath] and [fileContent] when they are strings. *)
Record ParsedJson := {
  json_files : option (list AiFile);
  json_filePath : option string;
  json_fileContent : option string
}.

(** The [try] block of [handleSendMessage] on the text of the response:
    the new value of [generatedFiles].  [None] as response is a text that
    [JSON.parse] rejects. *)
Definition handleResponse (parsedJson : option ParsedJson)
    (prev : option GeneratedFiles) : option GeneratedFiles :=
  match parsedJson with
  | Some r =>
      match json_files r with
      | Some l => Some (mergeMany l prev)
      | None =>
          match json_filePath r, json_fileContent r with
          | Some path, Some content =>
              if JS.truthy path && JS.truthy content
              then Some (mergeLegacy path content prev)
              else prev
          | _, _ => prev
          end
      end
  | None => prev
  end.

Section FormHandlers.
Context `{NUM : JSNumber}.

(** [{ ...modData, settings }]. *)
Definition withSettings (modData : ModData.t) (l : list ModSetting.t)
  : ModData.t :=
  ModData.mk (ModData.id modData) (ModData.name modData)
    (ModData.version modData) (ModData.developer modData)
    (ModData.description modData) (ModData.logo modData)
    (ModData.dependencies modData) (ModData.repository modData)
    (ModData.cppTemplate modData) (ModData.includeCi modData)
    (ModData.platforms modData) (ModData.gdVersion modData)
    (ModData.geodeVersion modData) (ModData.tags modData)
    (ModData.providesApi modData) (ModData.earlyLoad modData) l.

(** [addSetting]; [now] is what [Date.now()] returned. *)
Definition addSetting (now : Z) (modData : ModData.t) : ModData.t :=
  let newSetting :=
    ModSetting.mk ("setting-" +:+ pretty now)
      ("new-setting-" +:+ pretty (length (ModData.settings modData)))
      "New Setting" "A description for the new setting." Tbool (VBool false) in
  withSettings modData (ModData.settings modData ++ [newSetting]).

(** The callback of [data.settings.forEach] on the settings object. *)
Definition settingsStep (o : list (string * json)) (setting : ModSetting.t)
  : list (string * json) :=
  obj_assign (ModSetting.key setting) (json_of_setting setting) o.

(** Whether a setting has the key [k]. *)
Definition has_key (k : string) (s : ModSetting.t) : bool :=
  String.eqb (ModSetting.key s) k.

(** [removeSetting]. *)
Definition removeSetting (id : string) (modData : ModData.t) : ModData.t :=
  withSettings modData
    (List.filter (fun s => negb (String.eqb (ModSetting.id s) id))
       (ModData.settings modData)).


End FormHandlers.

(** Form data with every optional part filled in, to run the model on:
    two settings share the key [speed]. *)
Definition sampleData : @ModData.t Run.numbers :=
  ModData.mk "com.dev.mod" "Mod" "v1.2.0" "Dev" "A mod."
    (Some "data:image/png;base64,iVBORw0KGgo=")
    "geode.node-ids@>=1.0, @scoped ,," "https://github.com/dev/mod.git"
    settings_template true (Platforms.mk true false false true) "2.2074"
    "2.0.0-beta.26" " gameplay, ,utility" true false
    [Run.setting "s1" "speed" "Speed" "How fast" Tint (VStr "12");
     Run.setting "s2" "enabled" "Enabled" "On or off" Tbool (VBool true);
     Run.setting "s3" "speed" "Speed again" "How fast, again" Tfloat
       (@VNum Run.numbers (Some 3))].

(** The characters a sanitized file name is made of: lower-case letters,
    digits, [-], [_] and [.]. *)
Definition safeChar (a : ascii) : bool :=
  JS.in_range 97 122 a || JS.in_range 48 57 a
  || Ascii.eqb a "-" || Ascii.eqb a "_" || Ascii.eqb a ".".

(** * Properties *)

(** ** Strings *)

Lemma append_cons a (s t : string) : String a s +:+ t = String a (s +:+ t).
Proof. reflexivity. Qed.

Lemma append_empty_l (s : string) : EmptyString +:+ s = s.
Proof. reflexivity. Qed.

Lemma strlen_cons a s : JS.strlen (String a s) = JS.strlen s + 1.
Proof. unfold JS.strlen. cbn [String.length]. lia. Qed.

Lemma strlen_nonneg s : 0 <= JS.strlen s.
Proof. unfold JS.strlen. lia. Qed.

Lemma strlen_append s t : JS.strlen (s +:+ t) = JS.strlen s + JS.strlen t.
Proof.
  induction s as [|a s IH].
  - rewrite append_empty_l. unfold JS.strlen at 2. simpl. lia.
  - rewrite append_cons, !strlen_cons, IH. lia.
Qed.

Lemma truthy_true s : JS.truthy s = true <-> s <> EmptyString.
Proof. destruct s; simpl; split; intros; congruence. Qed.

Lemma truthy_false s : JS.truthy s = false <-> s = EmptyString.
Proof. destruct s; simpl; split; intros; congruence. Qed.

Lemma lastIndexOf_bounds c s : -1 <= JS.lastIndexOf c s < JS.strlen s.
Proof.
  induction s as [|a s IH]; [unfold JS.strlen; simpl; lia|].
  rewrite strlen_cons. cbn [JS.lastIndexOf].
  destruct (Z.leb_spec 0 (JS.lastIndexOf c s)); [lia|].
  pose proof (strlen_nonneg s). destruct (Ascii.eqb a c); lia.
Qed.

Lemma lastIndexOf_absent c s :
  includes c s = false -> JS.lastIndexOf c s = -1.
Proof.
  induction s as [|a s IH]; [reflexivity|].
  cbn [includes JS.lastIndexOf]. intros [Ha Hs]%orb_false_iff.
  rewrite (IH Hs), Ha. reflexivity.
Qed.

(** The last occurrence: nothing after it matches. *)
Lemma lastIndexOf_last c pre post :
  includes c post = false ->
  JS.lastIndexOf c (pre +:+ String c post) = JS.strlen pre.
Proof.
  intros Hpost. induction pre as [|a pre IH].
  - rewrite append_empty_l. cbn [JS.lastIndexOf].
    rewrite (lastIndexOf_absent _ _ Hpost), Ascii.eqb_refl. reflexivity.
  - rewrite append_cons, strlen_cons. cbn [JS.lastIndexOf]. rewrite IH.
    pose proof (strlen_nonneg pre).
    destruct (Z.leb_spec 0 (JS.strlen pre)); lia.
Qed.

Lemma substring_0_length (pre post : string) :
  String.substring 0 (String.length pre) (pre +:+ post) = pre.
Proof.
  induction pre as [|a pre IH].
  - rewrite append_empty_l. destruct post; reflexivity.
  - rewrite append_cons. cbn [String.length String.substring]. by rewrite IH.
Qed.

Lemma substring_skip (pre post : string) :
  String.substring (String.length pre) (String.length post) (pre +:+ post)
  = post.
Proof.
  induction pre as [|a pre IH].
  - rewrite append_empty_l. cbn [String.length].
    induction post as [|b post IHp]; [reflexivity|].
    cbn [String.length String.substring]. by rewrite IHp.
  - rewrite append_cons. cbn [String.length String.substring]. exact IH.
Qed.

(** [(pre + post).substring(0, pre.length)] is [pre]. *)
Lemma substring_prefix pre post :
  JS.substring (pre +:+ post) 0 (JS.strlen pre) = pre.
Proof.
  unfold JS.substring, JS.clamp. rewrite strlen_append.
  pose proof (strlen_nonneg pre). pose proof (strlen_nonneg post).
  replace (Z.min _ _) with 0 by lia.
  replace (Z.max _ _ - 0) with (JS.strlen pre) by lia.
  unfold JS.strlen. rewrite Nat2Z.id. apply substring_0_length.
Qed.

(** [(pre + post).substring(pre.length)] is [post]. *)
Lemma substringFrom_suffix pre post :
  JS.substringFrom (pre +:+ post) (JS.strlen pre) = post.
Proof.
  unfold JS.substringFrom, JS.substring, JS.clamp. rewrite strlen_append.
  pose proof (strlen_nonneg pre). pose proof (strlen_nonneg post).
  replace (Z.min _ _) with (JS.strlen pre) by lia.
  replace (Z.max _ _ - JS.strlen pre) with (JS.strlen post) by lia.
  unfold JS.strlen. rewrite !Nat2Z.id. apply substring_skip.
Qed.

Lemma append_assoc (s t u : string) : (s +:+ t) +:+ u = s +:+ (t +:+ u).
Proof.
  induction s as [|a s IH]; [reflexivity|].
  by rewrite !append_cons, IH.
Qed.

Lemma startsWith_append p s : JS.startsWith p (p +:+ s) = true.
Proof.
  induction p as [|a p IH]; [reflexivity|].
  rewrite append_cons. cbn [JS.startsWith]. by rewrite Ascii.eqb_refl, IH.
Qed.

Lemma startsWith_inv p s :
  JS.startsWith p s = true -> exists rest, s = p +:+ rest.
Proof.
  revert s. induction p as [|a p IH]; intros s H.
  - exists s. reflexivity.
  - destruct s as [|b s]; [done|]. cbn [JS.startsWith] in H.
    apply andb_true_iff in H as [Hab Hps]. apply Ascii.eqb_eq in Hab as ->.
    destruct (IH s Hps) as [rest ->]. exists rest. reflexivity.
Qed.

(** ** The dependency-token parser *)

Lemma parseDependency_split pre post :
  pre <> EmptyString -> includes "@" post = false ->
  parseDependency (pre +:+ String "@" post)
  = Dependency.mk pre true (JS.or_else post "*").
Proof.
  intros Hpre Hpost. unfold parseDependency.
  rewrite (lastIndexOf_last _ _ _ Hpost).
  assert (0 < JS.strlen pre) as Hlen.
  { destruct pre; [done|]. rewrite strlen_cons. pose proof (strlen_nonneg pre). lia. }
  destruct (Z.ltb_spec 0 (JS.strlen pre)); [|lia].
  rewrite substring_prefix.
  replace (pre +:+ String "@" post) with ((pre +:+ "@") +:+ post)
    by (by rewrite append_assoc).
  replace (JS.strlen pre + 1) with (JS.strlen (pre +:+ "@"))
    by (rewrite strlen_append; reflexivity).
  by rewrite substringFrom_suffix.
Qed.

Lemma parseDependency_whole tok :
  JS.lastIndexOf "@" tok <= 0 ->
  parseDependency tok = Dependency.mk tok true "*".
Proof.
  intros H. unfold parseDependency.
  destruct (Z.ltb_spec 0 (JS.lastIndexOf "@" tok)); [lia|reflexivity].
Qed.

(** C2. The parser splits a dependency token at its last [@]: when that
    [@] is not the first character, the id is the text before it and the
    version the text after it, ["*"] when that text is empty; a token
    without [@], or whose only [@] is its first character, is the id as a
    whole with version ["*"]; [required] is always true.  The three tokens
    of the specification parse as it says. *)
Theorem parseDependency_last_at :
  (forall pre post : string,
      pre <> EmptyString -> includes "@" post = false ->
      parseDependency (pre +:+ "@" +:+ post)
      = Dependency.mk pre true (if JS.truthy post then post else "*"))
  /\ (forall tok : string,
      includes "@" tok = false ->
      parseDependency tok = Dependency.mk tok true "*")
  /\ (forall post : string,
      includes "@" post = false ->
      parseDependency ("@" +:+ post) = Dependency.mk ("@" +:+ post) true "*")
  /\ (forall tok : string, Dependency.required (parseDependency tok) = true)
  /\ parseDependency "a.b.c@^1.2.0" = Dependency.mk "a.b.c" true "^1.2.0"
  /\ parseDependency "a.b.c" = Dependency.mk "a.b.c" true "*"
  /\ parseDependency "@scoped.id@2.0" = Dependency.mk "@scoped.id" true "2.0".
Proof.
  repeat split.
  - intros pre post Hpre Hpost. exact (parseDependency_split pre post Hpre Hpost).
  - intros tok Htok. apply parseDependency_whole.
    rewrite (lastIndexOf_absent _ _ Htok). lia.
  - intros post Hpost. apply parseDependency_whole.
    change ("@" +:+ post) with (EmptyString +:+ String "@" post).
    rewrite (lastIndexOf_last _ _ _ Hpost). reflexivity.
  - intros tok. unfold parseDependency.
    destruct (0 <? JS.lastIndexOf "@" tok); reflexivity.
Qed.

(** The cases of [parseDependency_last_at] at tokens with one, with no and
    with a leading [@]. *)
Lemma parseDependency_last_at_witness :
  parseDependency ("geode.node-ids" +:+ "@" +:+ ">=1.0")
  = Dependency.mk "geode.node-ids" true ">=1.0"
  /\ parseDependency "geode.node-ids" = Dependency.mk "geode.node-ids" true "*"
  /\ parseDependency ("@" +:+ "scoped") = Dependency.mk "@scoped" true "*".
Proof.
  destruct parseDependency_last_at as (Hsplit & Hnone & Hfirst & _).
  split; [|split].
  - apply (Hsplit "geode.node-ids" ">=1.0"); [discriminate|reflexivity].
  - apply (Hnone "geode.node-ids"). reflexivity.
  - apply (Hfirst "scoped"). reflexivity.
Defined.

(** ** Insertion-ordered objects *)

Section Objects.
Context {V : Type}.
Implicit Types (o : list (string * V)) (k : string) (v : V).

Lemma obj_get_set_eq k v o : obj_get k (obj_set k v o) = Some v.
Proof.
  induction o as [|[k' v'] o IH]; cbn [obj_set obj_get].
  - by rewrite String.eqb_refl.
  - destruct (String.eqb_spec k' k) as [->|Hne]; cbn [obj_get].
    + by rewrite String.eqb_refl.
    + destruct (String.eqb_spec k' k); [done|exact IH].
Qed.

Lemma obj_get_set_ne k k' v o :
  k <> k' -> obj_get k (obj_set k' v o) = obj_get k o.
Proof.
  intros Hne. induction o as [|[k0 v0] o IH]; cbn [obj_set obj_get].
  - destruct (String.eqb_spec k' k); [congruence|done].
  - destruct (String.eqb_spec k0 k') as [->|Hne0]; cbn [obj_get].
    + destruct (String.eqb_spec k' k); [congruence|done].
    + destruct (String.eqb_spec k0 k); [done|exact IH].
Qed.

Lemma obj_get_keys k o : is_Some (obj_get k o) <-> In k (obj_keys o).
Proof.
  induction o as [|[k0 v0] o IH]; cbn [obj_get obj_keys map fst In].
  - split; [intros [? ?]; done|done].
  - destruct (String.eqb_spec k0 k) as [->|Hne].
    + split; [auto|eauto].
    + rewrite IH. unfold obj_keys. tauto.
Qed.

End Objects.

(** ** The manifest *)

Section Manifest.
Context `{NUM : JSNumber}.

Lemma gd_lookup (data : ModData.t) (k : string) :
  obj_get k (gd data)
  = if platformEnabled (ModData.platforms data) k
    then Some (JS.or_else (ModData.gdVersion data) "*") else None.
Proof.
  unfold gd, platformEnabled.
  destruct (ModData.platforms data) as [[] [] [] []];
    cbv beta iota zeta delta
      [Platforms.win Platforms.mac Platforms.android Platforms.ios];
    (destruct (String.eqb_spec k "win") as [->|?]; [reflexivity|]);
    (destruct (String.eqb_spec k "mac") as [->|?]; [reflexivity|]);
    (destruct (String.eqb_spec k "android") as [->|?]; [reflexivity|]);
    (destruct (String.eqb_spec k "ios") as [->|?]; [reflexivity|]);
    rewrite ?obj_get_set_ne by done; reflexivity.
Qed.

Lemma gd_keys (data : ModData.t) :
  obj_keys (gd data)
  = List.filter (platformEnabled (ModData.platforms data))
      ["win"; "mac"; "android"; "ios"].
Proof.
  unfold gd. destruct (ModData.platforms data) as [[] [] [] []]; reflexivity.
Qed.

(** The property [gd] of the manifest is the platform map. *)
Lemma modJson_gd (data : ModData.t) :
  obj_get "gd" (modJson data)
  = Some (JObj (map (fun kv => (fst kv, JStr (snd kv))) (gd data))).
Proof.
  unfold modJson.
  repeat match goal with
         | |- context [if ?b then _ else _] => destruct b
         end;
    rewrite ?obj_get_set_ne by discriminate; reflexivity.
Qed.

(** C7. Whatever the four platform flags are, the keys of the platform map
    of the manifest are exactly the enabled platforms, each once and in
    the order win, mac, android, ios, and each is mapped to the target game
    version, or to ["*"] when that string is empty. *)
Theorem gd_exactly_enabled_platforms (data : ModData.t) :
  let enabled := platformEnabled (ModData.platforms data) in
  let target := if JS.truthy (ModData.gdVersion data)
                then ModData.gdVersion data else "*" in
  obj_get "gd" (modJson data)
  = Some (JObj (map (fun kv => (fst kv, JStr (snd kv))) (gd data)))
  /\ obj_keys (gd data) = List.filter enabled ["win"; "mac"; "android"; "ios"]
  /\ (forall k : string, In k (obj_keys (gd data)) <-> enabled k = true)
  /\ (forall k : string,
        enabled k = true -> obj_get k (gd data) = Some target)
  /\ (forall k : string, enabled k = false -> obj_get k (gd data) = None).
Proof.
  intros enabled target. split; [apply modJson_gd|].
  split; [apply gd_keys|]. split; [|split].
  - intros k. rewrite <- obj_get_keys, gd_lookup. fold enabled.
    destruct (enabled k).
    + split; eauto.
    + split; [intros [? ?]; done|done].
  - intros k Hk. rewrite gd_lookup. fold enabled. by rewrite Hk.
  - intros k Hk. rewrite gd_lookup. fold enabled. by rewrite Hk.
Qed.

End Manifest.

(** The platform map of the initial form data: win, mac and android at the
    target version, no ios. *)
Lemma gd_exactly_enabled_platforms_witness :
  obj_get "win" (@gd Run.numbers Run.modData) = Some "*"
  /\ obj_get "ios" (@gd Run.numbers Run.modData) = None.
Proof.
  destruct (@gd_exactly_enabled_platforms Run.numbers Run.modData)
    as (_ & _ & _ & Hon & Hoff).
  split; [apply (Hon "win")|apply (Hoff "ios")]; reflexivity.
Defined.

(** ** Merging AI responses into the tree *)

Lemma last_char_cons a s :
  s <> EmptyString -> last_char (String a s) = last_char s.
Proof. destruct s; [done|reflexivity]. Qed.

Lemma last_char_append s t :
  t <> EmptyString -> last_char (s +:+ t) = last_char t.
Proof.
  intros Ht. induction s as [|a s IH]; [reflexivity|].
  rewrite append_cons, last_char_cons; [exact IH|].
  destruct s; [by rewrite append_empty_l|by rewrite append_cons].
Qed.

Lemma last_char_map_chars f s :
  last_char (JS.map_chars f s) = f <$> last_char s.
Proof.
  induction s as [|a s IH]; [reflexivity|].
  cbn [JS.map_chars]. destruct s as [|b s]; [reflexivity|].
  rewrite !last_char_cons by done. exact IH.
Qed.

Lemma endsWith_append p s : JS.endsWith p (s +:+ p) = true.
Proof.
  induction s as [|a s IH].
  - rewrite append_empty_l. destruct p; cbn [JS.endsWith].
    + reflexivity.
    + by rewrite String.eqb_refl.
  - rewrite append_cons. cbn [JS.endsWith]. rewrite IH. apply orb_true_r.
Qed.

Lemma endsWith_inv p s :
  JS.endsWith p s = true -> exists pre, s = pre +:+ p.
Proof.
  induction s as [|a s IH]; cbn [JS.endsWith].
  - intros ->%String.eqb_eq. by exists EmptyString.
  - intros [->%String.eqb_eq|H]%orb_true_iff; [by exists EmptyString|].
    destruct (IH H) as [pre ->]. by exists (String a pre).
Qed.

(** The sanitized file name ends in [g], the last letter of [.png]. *)
Lemma sanitizeFileName_last fileName :
  last_char (sanitizeFileName fileName) = Some "g"%char.
Proof.
  unfold sanitizeFileName, JS.toLowerCase. rewrite !last_char_map_chars.
  assert (last_char (if JS.endsWith ".png" fileName then fileName
                     else fileName +:+ ".png") = Some "g"%char) as ->.
  { destruct (JS.endsWith ".png" fileName) eqn:E.
    - apply endsWith_inv in E as [pre ->]. by rewrite last_char_append.
    - by rewrite last_char_append. }
  reflexivity.
Qed.

(** After the first [.png] became [.plist], the name ends in [t] or in
    [g]. *)
Lemma replaceFirst_png_last s :
  last_char s = Some "g"%char ->
  last_char (JS.replaceFirst ".png" ".plist" s) = Some "t"%char
  \/ last_char (JS.replaceFirst ".png" ".plist" s) = Some "g"%char.
Proof.
  induction s as [|a s IH]; [done|]. intros Hlast.
  cbn [JS.replaceFirst].
  destruct (JS.startsWith ".png" (String a s)) eqn:E.
  - apply startsWith_inv in E as [rest E]. rewrite E.
    rewrite substringFrom_suffix.
    rewrite E in Hlast. destruct rest as [|b rest]; [by left|right].
    rewrite last_char_append by done. by rewrite last_char_append in Hlast.
  - destruct s as [|b s].
    + right. exact Hlast.
    + rewrite last_char_cons in Hlast by done.
      assert (JS.replaceFirst ".png" ".plist" (String b s) <> EmptyString).
      { cbn [JS.replaceFirst].
        destruct (JS.startsWith ".png" (String b s));
          [rewrite append_cons|]; done. }
      rewrite last_char_cons by done. exact (IH Hlast).
Qed.

(** The sibling update: a generated asset removes the placeholder. *)
Lemma mergeAsset_removes_gitkeep fileName base64ImageBytes plistContent
    (prev : option GeneratedFiles) :
  mergeAsset fileName base64ImageBytes plistContent prev !! "assets/.gitkeep"
  = None.
Proof.
  unfold mergeAsset. cbv zeta.
  pose proof (sanitizeFileName_last fileName) as Hs.
  pose proof (replaceFirst_png_last _ Hs) as Hp.
  rewrite !lookup_insert_ne; [apply lookup_delete_eq| |].
  - intros [= E]. rewrite append_empty_l in E. rewrite E in Hs.
    discriminate Hs.
  - intros [= E]. rewrite append_empty_l in E. rewrite E in Hp.
    by destruct Hp.
Qed.

(** ** The generator's tree and the regeneration *)

Section StoreProperties.
Context `{NUM : JSNumber} `{PR : !JSONPrinter}.
Implicit Types (modData : ModData.t) (year : Z) (path : string).
Implicit Types (files previous : GeneratedFiles).

Local Ltac unfold_base :=
  unfold baseFiles; rewrite !list_to_map_cons, list_to_map_nil.

Lemma baseFiles_gitkeep year modData :
  baseFiles year modData !! "assets/.gitkeep" = Some (Some EmptyString).
Proof.
  unfold_base. rewrite !lookup_insert_ne by done. apply lookup_insert_eq.
Qed.

Lemma baseFiles_license year modData :
  baseFiles year modData !! "LICENSE"
  = Some (Some (generateLicense year modData)).
Proof.
  unfold_base. rewrite !lookup_insert_ne by done. apply lookup_insert_eq.
Qed.

Lemma baseFiles_logo year modData :
  baseFiles year modData !! "assets/logo.png" = None.
Proof.
  unfold_base. rewrite !lookup_insert_ne by done. apply lookup_empty.
Qed.

(** The year reaches the base tree through [LICENSE] alone. *)
Lemma baseFiles_year y1 y2 modData path :
  path <> "LICENSE" ->
  baseFiles y1 modData !! path = baseFiles y2 modData !! path.
Proof.
  intros Hne. unfold_base. rewrite !lookup_insert.
  repeat case_decide; congruence.
Qed.

(** The branch that deletes a logo from the literal never runs. *)
Lemma generatorOutput_unfold year modData :
  generatorOutput year modData
  = let files := baseFiles year modData in
    let files :=
      if ModData.includeCi modData
      then <[".github/workflows/main.yml" := Some generateCIWorkflow]> files
      else files in
    match ModData.logo modData with
    | Some logo =>
        if JS.truthy logo
        then <["assets/logo.png" := logoBase64 logo]> files else files
    | None => files
    end.
Proof.
  unfold generatorOutput. cbv zeta.
  assert ((if ModData.includeCi modData
           then <[".github/workflows/main.yml" := Some generateCIWorkflow]>
                  (baseFiles year modData)
           else baseFiles year modData) !! "assets/logo.png" = None) as ->.
  { destruct (ModData.includeCi modData);
      rewrite ?lookup_insert_ne by done; apply baseFiles_logo. }
  cbn [mjoin option_join JS.truthy_opt].
  destruct (ModData.logo modData) as [logo|]; [destruct (JS.truthy logo)|];
    reflexivity.
Qed.

Lemma generatorOutput_gitkeep year modData :
  generatorOutput year modData !! "assets/.gitkeep" = Some (Some EmptyString).
Proof.
  rewrite generatorOutput_unfold. cbv zeta.
  destruct (ModData.includeCi modData), (ModData.logo modData) as [logo|];
    try destruct (JS.truthy logo);
    rewrite ?lookup_insert_ne by done; apply baseFiles_gitkeep.
Qed.

Lemma generatorOutput_license year modData :
  generatorOutput year modData !! "LICENSE"
  = Some (Some (generateLicense year modData)).
Proof.
  rewrite generatorOutput_unfold. cbv zeta.
  destruct (ModData.includeCi modData), (ModData.logo modData) as [logo|];
    try destruct (JS.truthy logo);
    rewrite ?lookup_insert_ne by done; apply baseFiles_license.
Qed.

Lemma generatorOutput_year y1 y2 modData path :
  path <> "LICENSE" ->
  generatorOutput y1 modData !! path = generatorOutput y2 modData !! path.
Proof.
  intros Hne. rewrite !generatorOutput_unfold. cbv zeta.
  destruct (ModData.includeCi modData), (ModData.logo modData) as [logo|];
    try destruct (JS.truthy logo);
    rewrite ?lookup_insert; repeat case_decide;
    auto using baseFiles_year.
Qed.

(** What the loop over the previous tree leaves at a path. *)
Lemma keep_lookup files previous path :
  map_fold keepStep files previous !! path
  = if keepAsset path
    then match previous !! path with
         | Some content => Some content
         | None => files !! path
         end
    else files !! path.
Proof.
  apply (map_fold_weak_ind (fun r (m : GeneratedFiles) =>
    r !! path = if keepAsset path
                then match m !! path with
                     | Some content => Some content
                     | None => files !! path
                     end
                else files !! path)).
  - rewrite lookup_empty. by destruct (keepAsset path).
  - intros i x m r Hi IH. unfold keepStep.
    destruct (decide (i = path)) as [->|Hne].
    + rewrite lookup_insert_eq. rewrite Hi in IH.
      destruct (keepAsset path); [apply lookup_insert_eq|exact IH].
    + rewrite (lookup_insert_ne m) by done.
      destruct (keepAsset i); rewrite ?lookup_insert_ne by done; exact IH.
Qed.

Lemma generateFiles_lookup year modData previous path :
  generateFiles year modData (Some previous) !! path
  = if keepAsset path
    then match previous !! path with
         | Some content => Some content
         | None => generatorOutput year modData !! path
         end
    else generatorOutput year modData !! path.
Proof. unfold generateFiles. apply keep_lookup. Qed.

Lemma keepAsset_true path :
  keepAsset path = true
  <-> JS.startsWith "assets/" path = true
      /\ path <> "assets/logo.png" /\ path <> "assets/.gitkeep".
Proof.
  unfold keepAsset. rewrite !andb_true_iff, !negb_true_iff.
  rewrite !String.eqb_neq. tauto.
Qed.

(** C4. Regeneration lays every entry of the previous tree whose path is
    under [assets/], and is neither [assets/logo.png] nor
    [assets/.gitkeep], over the freshly generated tree with its content
    unchanged; at every other path the result is the generator's fresh
    output. *)
Theorem generateFiles_keeps_assets year modData previous :
  (forall (rest : string) (content : option string),
      "assets/" +:+ rest <> "assets/logo.png" ->
      "assets/" +:+ rest <> "assets/.gitkeep" ->
      previous !! ("assets/" +:+ rest) = Some content ->
      generateFiles year modData (Some previous) !! ("assets/" +:+ rest)
      = Some content)
  /\ (forall path,
      JS.startsWith "assets/" path = false
      \/ path = "assets/logo.png" \/ path = "assets/.gitkeep"
      \/ previous !! path = None ->
      generateFiles year modData (Some previous) !! path
      = generatorOutput year modData !! path).
Proof.
  split.
  - intros rest content Hlogo Hkeep Hprev. rewrite generateFiles_lookup.
    assert (keepAsset ("assets/" +:+ rest) = true) as ->.
    { apply keepAsset_true. split; [apply startsWith_append|done]. }
    by rewrite Hprev.
  - intros path H. rewrite generateFiles_lookup.
    destruct (keepAsset path) eqn:Hk; [|done].
    apply keepAsset_true in Hk as (Hs & Hl & Hg).
    destruct H as [H|[H|[H|H]]]; try congruence. by rewrite H.
Qed.

(** C9. Every tree [generateFiles] builds holds [assets/.gitkeep] with
    empty content, whether a logo is set or not and whatever the previous
    tree held; so it is back after an asset merge had removed it. *)
Theorem generateFiles_has_gitkeep year modData
    (generatedFiles : option GeneratedFiles) :
  generateFiles year modData generatedFiles !! "assets/.gitkeep"
  = Some (Some EmptyString)
  /\ (forall fileName base64ImageBytes plistContent : string,
        let merged :=
          mergeAsset fileName base64ImageBytes plistContent generatedFiles in
        merged !! "assets/.gitkeep" = None
        /\ generateFiles year modData (Some merged) !! "assets/.gitkeep"
           = Some (Some EmptyString)).
Proof.
  assert (forall g, generateFiles year modData g !! "assets/.gitkeep"
                    = Some (Some EmptyString)) as Hall.
  { intros [previous|]; [|apply generatorOutput_gitkeep].
    rewrite generateFiles_lookup.
    replace (keepAsset "assets/.gitkeep") with false by reflexivity.
    apply generatorOutput_gitkeep. }
  split; [apply Hall|]. intros fileName base64ImageBytes plistContent merged.
  split; [apply mergeAsset_removes_gitkeep|apply Hall].
Qed.

End StoreProperties.

(** ** File batches *)


Lemma assignFile_ne path content (newFiles : GeneratedFiles) p :
  p <> path -> assignFile path content newFiles !! p = newFiles !! p.
Proof.
  intros Hne. unfold assignFile.
  destruct (_ && _); [reflexivity|]. by apply lookup_insert_ne.
Qed.

Lemma assignFile_insert path content (newFiles : GeneratedFiles) :
  path <> "__proto__" ->
  assignFile path content newFiles = <[path := content]> newFiles.
Proof.
  intros Hne%String.eqb_neq. unfold assignFile. by rewrite Hne.
Qed.


Lemma mergeStep_incomplete (newFiles : GeneratedFiles) f :
  complete f = false -> mergeStep newFiles f = newFiles.
Proof.
  unfold complete, mergeStep. destruct (filePath f) as [path|]; [|done].
  cbn [JS.truthy_opt]. by intros ->.
Qed.

Lemma mergeStep_complete (newFiles : GeneratedFiles) f :
  complete f = true ->
  exists path, filePath f = Some path
               /\ mergeStep newFiles f
                  = assignFile path (fileContent f) newFiles.
Proof.
  unfold complete, mergeStep. destruct (filePath f) as [path|]; [|done].
  cbn [JS.truthy_opt]. intros ->. by exists path.
Qed.

Lemma mergeStep_other (newFiles : GeneratedFiles) f path :
  (complete f = true -> filePath f <> Some path) ->
  mergeStep newFiles f !! path = newFiles !! path.
Proof.
  intros H. destruct (complete f) eqn:E.
  - destruct (mergeStep_complete newFiles f E) as (p & Hp & ->).
    apply assignFile_ne. intros ->. by apply H.
  - by rewrite mergeStep_incomplete.
Qed.


Lemma fold_mergeStep_other files (acc : GeneratedFiles) path :
  (forall f, In f files -> complete f = true -> filePath f <> Some path) ->
  fold_left mergeStep files acc !! path = acc !! path.
Proof.
  revert acc. induction files as [|f files IH]; intros acc H; [reflexivity|].
  cbn [fold_left]. rewrite IH by (intros g Hg; apply H; by right).
  apply mergeStep_other. apply H. by left.
Qed.






(** C1. A file batch with an entry under [assets/] leaves
    [assets/.gitkeep] in the tree: [mergeMany] writes the entry and deletes
    nothing, where the update after a generated asset ([mergeAsset]) does
    delete the placeholder from the same tree. *)
Theorem mergeMany_asset_leaves_gitkeep :
  let tree : GeneratedFiles := {[ "assets/.gitkeep" := Some EmptyString ]} in
  let batch :=
    [ {| filePath := Some "assets/data.json"; fileContent := Some "{}" |} ] in
  mergeMany batch (Some tree) !! "assets/data.json" = Some (Some "{}")
  /\ mergeMany batch (Some tree) !! "assets/.gitkeep" = Some (Some EmptyString)
  /\ mergeAsset "data.png" "iVBORw0KGgo=" "<plist/>" (Some tree)
       !! "assets/.gitkeep" = None.
Proof.
  intros tree batch. split; [|split].
  - unfold mergeMany, batch. cbn [fold_left mergeStep filePath fileContent].
    cbn [JS.truthy JS.truthy_opt andb].
    rewrite assignFile_insert by done. apply lookup_insert_eq.
  - unfold mergeMany, batch. cbn [fold_left mergeStep filePath fileContent].
    cbn [JS.truthy JS.truthy_opt andb]. rewrite assignFile_insert by done.
    rewrite lookup_insert_ne by done. apply lookup_singleton_eq.
  - apply mergeAsset_removes_gitkeep.
Qed.

(** Whatever the batch, [mergeMany] removes no entry: the placeholder stays
    unless an entry of the batch is written over it. *)
Lemma mergeMany_keeps_gitkeep (files : list AiFile) (prev : option GeneratedFiles) :
  (forall f, In f files -> complete f = true ->
             filePath f <> Some "assets/.gitkeep") ->
  mergeMany files prev !! "assets/.gitkeep"
  = default ∅ prev !! "assets/.gitkeep".
Proof. intros H. unfold mergeMany. by apply fold_mergeStep_other. Qed.

(** ** The archive *)

Lemma substring_all (s : string) : String.substring 0 (String.length s) s = s.
Proof.
  induction s as [|a s IH]; [reflexivity|].
  cbn [String.length String.substring]. by rewrite IH.
Qed.

Lemma substring_tail (s : string) (n : nat) :
  (n <= String.length s)%nat ->
  exists pre, s = pre +:+ String.substring n (String.length s - n) s.
Proof.
  revert n. induction s as [|a s IH]; intros n Hn.
  - exists EmptyString. cbn [String.length] in Hn.
    replace n with 0%nat by lia. reflexivity.
  - destruct n as [|n].
    + exists EmptyString. rewrite Nat.sub_0_r, substring_all. reflexivity.
    + cbn [String.length] in Hn. destruct (IH n ltac:(lia)) as [pre Hpre].
      exists (String a pre). rewrite append_cons.
      cbn [String.length String.substring Nat.sub]. by rewrite <- Hpre.
Qed.

(** [s.substring(k)] is a suffix of [s]. *)
Lemma substringFrom_is_suffix s k : exists pre, s = pre +:+ JS.substringFrom s k.
Proof.
  unfold JS.substringFrom, JS.substring, JS.clamp.
  pose proof (strlen_nonneg s).
  replace (Z.min (Z.max 0 (Z.min k (JS.strlen s)))
             (Z.max 0 (Z.min (JS.strlen s) (JS.strlen s))))
    with (Z.max 0 (Z.min k (JS.strlen s))) by lia.
  replace (Z.max (Z.max 0 (Z.min k (JS.strlen s)))
             (Z.max 0 (Z.min (JS.strlen s) (JS.strlen s))))
    with (JS.strlen s) by lia.
  set (n := Z.to_nat (Z.max 0 (Z.min k (JS.strlen s)))).
  replace (Z.to_nat (JS.strlen s - Z.max 0 (Z.min k (JS.strlen s))))
    with (String.length s - n)%nat by (unfold n, JS.strlen in *; lia).
  apply substring_tail. unfold n, JS.strlen in *. lia.
Qed.

Lemma baseName_is_suffix path : exists pre, path = pre +:+ baseName path.
Proof. apply substringFrom_is_suffix. Qed.

Lemma extension_is_suffix path : exists pre, path = pre +:+ extension path.
Proof.
  unfold extension. cbv zeta.
  destruct (baseName_is_suffix path) as [pre Hpre].
  destruct (0 <=? JS.lastIndexOf "." (baseName path)).
  - destruct (substringFrom_is_suffix (baseName path)
                (JS.lastIndexOf "." (baseName path))) as [mid Hmid].
    exists (pre +:+ mid). by rewrite append_assoc, <- Hmid.
  - exists path. clear. induction path as [|a p IH]; [reflexivity|].
    by rewrite append_cons, <- IH.
Qed.

Lemma endsWith_iff p s : JS.endsWith p s = true <-> exists pre, s = pre +:+ p.
Proof.
  split; [apply endsWith_inv|]. intros [pre ->]. apply endsWith_append.
Qed.

Lemma isTextFile_iff path :
  isTextFile path = true
  <-> exists pre ext, In ext textSuffixes /\ path = pre +:+ ext.
Proof.
  unfold isTextFile. rewrite existsb_exists. split.
  - intros (ext & Hin & [pre ->]%endsWith_iff). eauto.
  - intros (pre & ext & Hin & ->). exists ext. split; [done|].
    apply endsWith_append.
Qed.

(** Every entry the specification calls text is written as text. *)
Lemma spec_isTextFile_isTextFile path :
  spec_isTextFile path = true -> isTextFile path = true.
Proof.
  unfold spec_isTextFile. rewrite !orb_true_iff, existsb_exists.
  intros [[(ext & Hin & Heq)|Hname]|Hname]; apply isTextFile_iff.
  - apply String.eqb_eq in Heq. subst ext.
    destruct (extension_is_suffix path) as [pre Hpre].
    exists pre, (extension path). split; [|done].
    unfold textExtensions, textSuffixes in *. cbn [In] in *. tauto.
  - apply String.eqb_eq in Hname. destruct (baseName_is_suffix path) as [pre Hpre].
    rewrite Hname in Hpre. exists pre, "LICENSE". split; [|done].
    unfold textSuffixes. cbn [In]. tauto.
  - apply String.eqb_eq in Hname. destruct (baseName_is_suffix path) as [pre Hpre].
    rewrite Hname in Hpre. exists pre, ".gitkeep". split; [|done].
    unfold textSuffixes. cbn [In]. tauto.
Qed.

(** C6, as the code has it. An entry with content is written as text if
    and only if its path ends with one of the nine strings [.json],
    [.txt], [.cpp], [.md], [.yml], [.gitignore], [LICENSE], [.gitkeep],
    [.plist], and as base64 otherwise; so every entry with one of the seven
    extensions, or named exactly [LICENSE] or [.gitkeep], is text. *)
Theorem addFileToZip_text_iff_suffix (path content : string)
    (zip : gmap string ZipData) :
  (isTextFile path = true
   <-> exists pre ext,
         In ext [".json"; ".txt"; ".cpp"; ".md"; ".yml"; ".gitignore";
                 "LICENSE"; ".gitkeep"; ".plist"]
         /\ path = pre +:+ ext)
  /\ (isTextFile path = true ->
      addFileToZip path (Some content) zip = <[path := ZipText content]> zip)
  /\ (isTextFile path = false ->
      addFileToZip path (Some content) zip = <[path := ZipBase64 content]> zip)
  /\ (spec_isTextFile path = true -> isTextFile path = true)
  /\ addFileToZip path None zip = zip.
Proof.
  split; [apply isTextFile_iff|].
  unfold addFileToZip.
  split; [by intros ->|]. split; [by intros ->|].
  split; [apply spec_isTextFile_isTextFile|reflexivity].
Qed.

(** A manifest is written as text, a picture as base64. *)
Lemma addFileToZip_text_iff_suffix_witness :
  addFileToZip "mod.json" (Some "{}") ∅ = {[ "mod.json" := ZipText "{}" ]}
  /\ addFileToZip "assets/logo.png" (Some "iVBORw0KGgo=") ∅
     = {[ "assets/logo.png" := ZipBase64 "iVBORw0KGgo=" ]}.
Proof.
  destruct (addFileToZip_text_iff_suffix "mod.json" "{}" ∅)
    as (_ & Htext & _).
  destruct (addFileToZip_text_iff_suffix "assets/logo.png" "iVBORw0KGgo=" ∅)
    as (_ & _ & Hbin & _).
  split; [apply Htext|apply Hbin]; reflexivity.
Defined.

(** C6, as the specification has it, fails: [UNLICENSE] has no extension
    and is not named [LICENSE], and is written as text all the same; so
    does [assets/sprite.gitkeep], whose extension is not among the seven. *)
Lemma addFileToZip_text_beyond_spec :
  extension "UNLICENSE" = EmptyString
  /\ baseName "UNLICENSE" <> "LICENSE"
  /\ spec_isTextFile "UNLICENSE" = false
  /\ addFileToZip "UNLICENSE" (Some "text") ∅ = {[ "UNLICENSE" := ZipText "text" ]}
  /\ spec_isTextFile "assets/sprite.gitkeep" = false
  /\ addFileToZip "assets/sprite.gitkeep" (Some "text") ∅
     = {[ "assets/sprite.gitkeep" := ZipText "text" ]}
  /\ ~ (forall (path content : string) (zip : gmap string ZipData),
          addFileToZip path (Some content) zip = <[path := ZipText content]> zip
          <-> spec_isTextFile path = true).
Proof.
  repeat split; try discriminate.
  intros H. destruct (H "UNLICENSE" "text" ∅) as [Hspec _].
  assert (spec_isTextFile "UNLICENSE" = true) as E by (apply Hspec; reflexivity).
  vm_compute in E. discriminate E.
Qed.

(** ** The settings form *)

Section FormProperties.
Context `{NUM : JSNumber}.

Lemma newSettings_lookup id c (l : list ModSetting.t) (i : nat) :
  newSettings id c l !! i
  = (fun s => if String.eqb (ModSetting.id s) id then updatedSetting c s else s)
      <$> l !! i.
Proof. unfold newSettings. apply list_lookup_fmap. Qed.

(** C8. A change of the type tag of a setting stores the canonical zero of
    the new type as its default ([false], [0], [0.0], the empty string) and
    keeps its other fields, whatever the default was; the other settings
    stay as they are.  So string to integer gives [0] and boolean to float
    gives [0.0]. *)
Theorem handleSettingChange_type_resets_default (id : string)
    (newType : ModSettingType) (modData : ModData.t) :
  let changed := ModData.settings (handleSettingChange id (SetType newType) modData) in
  (forall (i : nat) (s : ModSetting.t),
      ModData.settings modData !! i = Some s -> ModSetting.id s = id ->
      changed !! i
      = Some (ModSetting.mk (ModSetting.id s) (ModSetting.key s)
                (ModSetting.name s) (ModSetting.description s) newType
                (match newType with
                 | Tbool => VBool false
                 | Tint => VNum num_zero
                 | Tfloat => VNum num_zero
                 | Tstring => VStr EmptyString
                 end)))
  /\ (forall (i : nat) (s : ModSetting.t),
      ModData.settings modData !! i = Some s -> ModSetting.id s <> id ->
      changed !! i = Some s)
  /\ length changed = length (ModData.settings modData).
Proof.
  intros changed. unfold changed, handleSettingChange.
  cbn [ModData.settings]. split; [|split].
  - intros i s Hs Hid. rewrite newSettings_lookup, Hs. cbn [fmap option_fmap option_map].
    apply String.eqb_eq in Hid. rewrite Hid. unfold updatedSetting, resetDefault.
    by destruct newType.
  - intros i s Hs Hid. rewrite newSettings_lookup, Hs. cbn [fmap option_fmap option_map].
    apply String.eqb_neq in Hid. by rewrite Hid.
  - unfold newSettings. apply length_map.
Qed.

End FormProperties.

(** The welcome-message setting of the initial form, a string, becomes an
    integer setting with default [0]; a boolean setting becomes a float
    setting with default [0.0]. *)
Lemma handleSettingChange_type_resets_default_witness :
  ModData.settings
    (@handleSettingChange Run.numbers "setting-initial-1" (SetType Tint)
       Run.modData) !! 0%nat
  = Some (Run.setting "setting-initial-1" "welcome_message" "Welcome Message"
            "The message to display on startup" Tint
            (@VNum Run.numbers (Some 0)))
  /\ @newSettings Run.numbers "s1" (SetType Tfloat)
       [Run.setting "s1" "enabled" "Enabled" "On or off" Tbool (VBool true)]
     = [Run.setting "s1" "enabled" "Enabled" "On or off" Tfloat
          (@VNum Run.numbers (Some 0))].
Proof.
  split; [|reflexivity].
  destruct (@handleSettingChange_type_resets_default Run.numbers
              "setting-initial-1" Tint Run.modData) as (Hreset & _).
  apply (Hreset 0%nat
           (Run.setting "setting-initial-1" "welcome_message" "Welcome Message"
              "The message to display on startup" Tstring
              (VStr "Hello, Geode!"))); reflexivity.
Defined.

(** ** Gating and determinism *)

Section RegenerateProperties.
Context `{NUM : JSNumber} `{PR : !JSONPrinter}.
Implicit Types (modData : ModData.t) (year : Z) (path : string).

Lemma idError_truthy (id : string) : idError id = true -> JS.truthy id = true.
Proof. unfold idError. by intros [? _]%andb_true_iff. Qed.

(** C5. When identifier, name and developer are all non-empty the tree is
    replaced by what [generateFiles] builds, in which nothing of the
    previous tree but the kept assets is left; when one of the three is
    empty the tree is cleared.  So an empty developer clears the tree, and
    an identifier that fails the pattern, being non-empty, does not stop
    the generation. *)
Theorem regenerate_required_fields year modData
    (generatedFiles : option GeneratedFiles) :
  (ModData.id modData <> EmptyString ->
   ModData.name modData <> EmptyString ->
   ModData.developer modData <> EmptyString ->
   regenerate year modData generatedFiles
   = Some (generateFiles year modData generatedFiles))
  /\ (forall path,
        keepAsset path = false ->
        generateFiles year modData generatedFiles !! path
        = generatorOutput year modData !! path)
  /\ (ModData.id modData = EmptyString
      \/ ModData.name modData = EmptyString
      \/ ModData.developer modData = EmptyString ->
      regenerate year modData generatedFiles = None)
  /\ (ModData.developer modData = EmptyString ->
      regenerate year modData generatedFiles = None)
  /\ (idError (ModData.id modData) = true ->
      ModData.name modData <> EmptyString ->
      ModData.developer modData <> EmptyString ->
      regenerate year modData generatedFiles
      = Some (generateFiles year modData generatedFiles)).
Proof.
  assert (ModData.id modData <> EmptyString ->
          ModData.name modData <> EmptyString ->
          ModData.developer modData <> EmptyString ->
          regenerate year modData generatedFiles
          = Some (generateFiles year modData generatedFiles)) as Hgen.
  { intros Hi Hn Hd. unfold regenerate.
    apply truthy_true in Hi, Hn, Hd. by rewrite Hi, Hn, Hd. }
  assert (ModData.id modData = EmptyString
          \/ ModData.name modData = EmptyString
          \/ ModData.developer modData = EmptyString ->
          regenerate year modData generatedFiles = None) as Hclear.
  { unfold regenerate. intros [H|[H|H]]; rewrite H; cbn [JS.truthy andb];
      rewrite ?andb_false_r; reflexivity. }
  split; [exact Hgen|]. split; [|split; [exact Hclear|split]].
  - intros path Hk. destruct generatedFiles as [previous|]; [|reflexivity].
    by rewrite generateFiles_lookup, Hk.
  - intros Hd. apply Hclear. auto.
  - intros Hid%idError_truthy%truthy_true. by apply Hgen.
Qed.

(** C3. Two runs of the generator on the same form data (alone, or over
    the same previous tree) build trees with the same paths and the same
    content at every path but [LICENSE]; the two [LICENSE] entries are the
    same text around the year of the clock; with the same year the trees
    are equal. *)
Theorem generateFiles_deterministic_up_to_year modData
    (generatedFiles : option GeneratedFiles) (year1 year2 : Z) :
  generateFiles year1 modData None = generatorOutput year1 modData
  /\ (forall path,
      path <> "LICENSE" ->
      generateFiles year1 modData generatedFiles !! path
      = generateFiles year2 modData generatedFiles !! path)
  /\ dom (generateFiles year1 modData generatedFiles)
     = dom (generateFiles year2 modData generatedFiles)
  /\ (forall year,
        generateFiles year modData generatedFiles !! "LICENSE"
        = Some (Some (generateLicense year modData)))
  /\ (exists before after : string,
        forall year,
          generateLicense year modData = before +:+ pretty year +:+ after)
  /\ (year1 = year2 ->
      generateFiles year1 modData generatedFiles
      = generateFiles year2 modData generatedFiles).
Proof.
  assert (forall year,
             generateFiles year modData generatedFiles !! "LICENSE"
             = Some (Some (generateLicense year modData))) as Hlic.
  { intros year. destruct generatedFiles as [previous|];
      [rewrite generateFiles_lookup|]; apply generatorOutput_license. }
  assert (forall path,
             path <> "LICENSE" ->
             generateFiles year1 modData generatedFiles !! path
             = generateFiles year2 modData generatedFiles !! path) as Hother.
  { intros path Hne. destruct generatedFiles as [previous|].
    - rewrite !generateFiles_lookup.
      by rewrite (generatorOutput_year year1 year2).
    - by apply generatorOutput_year. }
  split; [reflexivity|].
  split; [exact Hother|]. split; [|split; [exact Hlic|split]].
  - apply set_eq. intros path. rewrite !elem_of_dom.
    destruct (decide (path = "LICENSE")) as [->|Hne].
    + by rewrite !Hlic.
    + by rewrite Hother.
  - unfold generateLicense. cbv zeta. eexists _, _. intros year. reflexivity.
  - by intros ->.
Qed.

End RegenerateProperties.

(** A picture the assistant added survives a regeneration. *)
Lemma generateFiles_keeps_assets_witness :
  @generateFiles Run.numbers Run.printer 2026 Run.modData
    (Some {[ "assets/extra.png" := Some "iVBORw0KGgo=" ]}) !! "assets/extra.png"
  = Some (Some "iVBORw0KGgo=")
  /\ @generateFiles Run.numbers Run.printer 2026 Run.modData
       (Some {[ "src/extra.cpp" := Some "int x;" ]}) !! "src/extra.cpp"
     = None.
Proof.
  split.
  - destruct (@generateFiles_keeps_assets Run.numbers Run.printer 2026
                Run.modData {[ "assets/extra.png" := Some "iVBORw0KGgo=" ]})
      as (Hkeep & _).
    apply (Hkeep "extra.png" (Some "iVBORw0KGgo=")); [done|done|reflexivity].
  - destruct (@generateFiles_keeps_assets Run.numbers Run.printer 2026
                Run.modData {[ "src/extra.cpp" := Some "int x;" ]})
      as (_ & Hfresh).
    rewrite (Hfresh "src/extra.cpp") by (left; reflexivity).
    rewrite generatorOutput_unfold. cbn [Run.modData Run.form ModData.includeCi ModData.logo].
    unfold baseFiles. rewrite !list_to_map_cons, list_to_map_nil.
    rewrite !lookup_insert_ne by done. apply lookup_empty.
Defined.

(** The complete form generates; without a developer the tree is absent;
    an identifier that fails the pattern generates all the same. *)
Lemma regenerate_required_fields_witness :
  @regenerate Run.numbers Run.printer 2026 Run.modData None
  = Some (@generateFiles Run.numbers Run.printer 2026 Run.modData None)
  /\ @regenerate Run.numbers Run.printer 2026
       (Run.form "com.dev.mod" "Mod" EmptyString)
       (Some (@generateFiles Run.numbers Run.printer 2026 Run.modData None))
     = None
  /\ idError "Not An Id" = true
  /\ @regenerate Run.numbers Run.printer 2026
       (Run.form "Not An Id" "Mod" "Dev") None
     = Some (@generateFiles Run.numbers Run.printer 2026
               (Run.form "Not An Id" "Mod" "Dev") None).
Proof.
  split; [|split; [|split; [reflexivity|]]].
  - destruct (@regenerate_required_fields Run.numbers Run.printer 2026
                Run.modData None) as (Hgen & _).
    apply Hgen; discriminate.
  - destruct (@regenerate_required_fields Run.numbers Run.printer 2026
                (Run.form "com.dev.mod" "Mod" EmptyString)
                (Some (@generateFiles Run.numbers Run.printer 2026
                         Run.modData None)))
      as (_ & _ & _ & Hdev & _).
    apply Hdev. reflexivity.
  - destruct (@regenerate_required_fields Run.numbers Run.printer 2026
                (Run.form "Not An Id" "Mod" "Dev") None)
      as (_ & _ & _ & _ & Hid).
    apply Hid; [reflexivity|discriminate|discriminate].
Defined.

(** The manifest of two runs a year apart is the same text. *)
Lemma generateFiles_deterministic_up_to_year_witness :
  @generateFiles Run.numbers Run.printer 2025 Run.modData None !! "mod.json"
  = @generateFiles Run.numbers Run.printer 2026 Run.modData None !! "mod.json".
Proof.
  destruct (@generateFiles_deterministic_up_to_year Run.numbers Run.printer
              Run.modData None 2025 2026) as (_ & Hsame & _).
  apply (Hsame "mod.json"). discriminate.
Defined.

(** * Further properties of the generator *)

(** ** Token lists *)

Lemma split_no_sep sep s x :
  In x (JS.split sep s) -> includes sep x = false.
Proof.
  revert x. induction s as [|a s IH]; intros x; cbn [JS.split].
  - intros [<-|[]]. reflexivity.
  - destruct (Ascii.eqb a sep) eqn:E.
    + intros [<-|H]; [reflexivity|by apply IH].
    + destruct (JS.split sep s) as [|h t] eqn:Es.
      * intros [<-|[]]. cbn [includes]. by rewrite E.
      * intros [<-|H].
        -- cbn [includes]. rewrite E. apply IH. by left.
        -- apply IH. by right.
Qed.

Lemma trimStart_includes c s :
  includes c s = false -> includes c (JS.trimStart s) = false.
Proof.
  induction s as [|a s IH]; [done|]. cbn [JS.trimStart].
  destruct (JS.is_space a); [|done].
  cbn [includes]. intros [_ H]%orb_false_iff. by apply IH.
Qed.

Lemma trimEnd_includes c s :
  includes c s = false -> includes c (JS.trimEnd s) = false.
Proof.
  induction s as [|a s IH]; [done|]. cbn [JS.trimEnd includes].
  intros [Ha Hs]%orb_false_iff. specialize (IH Hs).
  destruct (JS.trimEnd s) as [|b r].
  - destruct (JS.is_space a); [reflexivity|]. cbn [includes]. by rewrite Ha.
  - cbn [includes] in *. by rewrite Ha, IH.
Qed.

Lemma trimEnd_idem s : JS.trimEnd (JS.trimEnd s) = JS.trimEnd s.
Proof.
  induction s as [|a s IH]; [reflexivity|]. cbn [JS.trimEnd].
  destruct (JS.trimEnd s) as [|b r] eqn:E.
  - destruct (JS.is_space a) eqn:Ea; [reflexivity|].
    cbn [JS.trimEnd]. by rewrite Ea.
  - cbn [JS.trimEnd]. cbn [JS.trimEnd] in IH.
    destruct (JS.trimEnd r) as [|c r'].
    + destruct (JS.is_space b); [discriminate IH|]. by rewrite IH.
    + by rewrite IH.
Qed.

(** A string freed of leading white space keeps its first character when
    its end is trimmed. *)
Lemma trimStart_trimEnd s :
  JS.trimStart (JS.trimEnd (JS.trimStart s)) = JS.trimEnd (JS.trimStart s).
Proof.
  induction s as [|a s IH]; [reflexivity|]. cbn [JS.trimStart].
  destruct (JS.is_space a) eqn:Ea; [exact IH|].
  cbn [JS.trimEnd]. destruct (JS.trimEnd s) as [|b r].
  - rewrite Ea. cbn [JS.trimStart]. by rewrite Ea.
  - cbn [JS.trimStart]. by rewrite Ea.
Qed.

Lemma trim_idem s : JS.trim (JS.trim s) = JS.trim s.
Proof.
  unfold JS.trim. by rewrite trimStart_trimEnd, trimEnd_idem.
Qed.

Lemma trim_includes c s : includes c s = false -> includes c (JS.trim s) = false.
Proof. intros H. unfold JS.trim. by apply trimEnd_includes, trimStart_includes. Qed.

(** X1. Every token of a comma-separated field of the form (tags,
    dependencies) is non-empty, has no comma, and has no white space at
    its ends: trimming it again changes nothing. *)
Theorem tokens_clean (s t : string) :
  In t (tokens s) ->
  t <> EmptyString /\ includes "," t = false /\ JS.trim t = t.
Proof.
  unfold tokens. rewrite filter_In, in_map_iff.
  intros [(x & <- & Hx) Ht]. split; [by apply truthy_true|]. split.
  - apply trim_includes. exact (split_no_sep _ _ _ Hx).
  - apply trim_idem.
Qed.

(** The tags ["  gameplay , ,utility"] give two clean tokens. *)
Lemma tokens_clean_witness :
  tokens "  gameplay , ,utility" = ["gameplay"; "utility"]
  /\ JS.trim "gameplay" = "gameplay".
Proof.
  split; [reflexivity|].
  apply (tokens_clean "  gameplay , ,utility" "gameplay"). left. reflexivity.
Defined.

(** ** The shape of the manifest *)

Section ManifestShape.
Context `{NUM : JSNumber}.

(** X2. The manifest has the seven fixed properties first, then, in this
    order and each only under its condition: [icon] when a logo is set,
    [repository] when the field is non-empty, [api] and [early-load] when
    the flags are on, [tags] when the field is non-empty, [dependencies]
    when the field holds a token, [settings] when there is a setting. *)
Theorem modJson_keys (data : ModData.t) :
  obj_keys (modJson data)
  = ["geode"; "gd"; "id"; "name"; "version"; "developer"; "description"]
    ++ (if JS.truthy_opt (ModData.logo data) then ["icon"] else [])
    ++ (if JS.truthy (ModData.repository data) then ["repository"] else [])
    ++ (if ModData.providesApi data then ["api"] else [])
    ++ (if ModData.earlyLoad data then ["early-load"] else [])
    ++ (if JS.truthy (ModData.tags data) then ["tags"] else [])
    ++ (if JS.truthy (ModData.dependencies data)
           && (0 <? length (tokens (ModData.dependencies data)))%nat
        then ["dependencies"] else [])
    ++ (if (0 <? length (ModData.settings data))%nat then ["settings"] else []).
Proof.
  unfold modJson, dependenciesOf. cbv zeta. rewrite length_map.
  destruct (JS.truthy_opt (ModData.logo data)),
    (JS.truthy (ModData.repository data)), (ModData.providesApi data),
    (ModData.earlyLoad data), (JS.truthy (ModData.tags data)),
    (JS.truthy (ModData.dependencies data)),
    (0 <? length (tokens (ModData.dependencies data)))%nat,
    (0 <? length (ModData.settings data))%nat; reflexivity.
Qed.

End ManifestShape.

(** ** Dependencies *)

(** A string with an occurrence of [c] splits at the last one. *)
Lemma lastIndexOf_split c s :
  0 <= JS.lastIndexOf c s ->
  exists pre post,
    s = pre +:+ String c post /\ includes c post = false
    /\ JS.lastIndexOf c s = JS.strlen pre.
Proof.
  induction s as [|a s IH]; [cbn; lia|].
  cbn [JS.lastIndexOf].
  destruct (Z.leb_spec 0 (JS.lastIndexOf c s)) as [Hk|Hk].
  - intros _. destruct (IH Hk) as (pre & post & -> & Hpost & Hlen).
    exists (String a pre), post. rewrite append_cons, strlen_cons.
    repeat split; [done|lia].
  - destruct (Ascii.eqb_spec a c) as [->|Hne]; [|lia]. intros _.
    exists EmptyString, s. repeat split.
    clear IH. induction s as [|b s IHs]; [reflexivity|].
    cbn [JS.lastIndexOf includes] in *.
    destruct (Z.leb_spec 0 (JS.lastIndexOf c s)); [lia|].
    destruct (Ascii.eqb b c); [lia|]. apply IHs. lia.
Qed.

Lemma parseDependency_shape (tok : string) :
  tok <> EmptyString ->
  Dependency.id (parseDependency tok) <> EmptyString
  /\ Dependency.version (parseDependency tok) <> EmptyString
  /\ (tok = Dependency.id (parseDependency tok) +:+ "@"
              +:+ Dependency.version (parseDependency tok)
      \/ (Dependency.version (parseDependency tok) = "*"
          /\ (tok = Dependency.id (parseDependency tok)
              \/ tok = Dependency.id (parseDependency tok) +:+ "@"))).
Proof.
  intros Htok.
  destruct (Z.ltb_spec 0 (JS.lastIndexOf "@" tok)) as [Hk|Hk].
  - destruct (lastIndexOf_split "@" tok ltac:(lia))
      as (pre & post & -> & Hpost & Hlen).
    assert (pre <> EmptyString) as Hpre.
    { intros ->. rewrite Hlen in Hk. unfold JS.strlen in Hk. simpl in Hk. lia. }
    rewrite (parseDependency_split pre post Hpre Hpost).
    cbn [Dependency.id Dependency.version]. split; [done|].
    unfold JS.or_else. destruct post as [|b post]; cbn [JS.truthy].
    + split; [done|]. right. split; [reflexivity|]. by right.
    + split; [done|]. by left.
  - rewrite (parseDependency_whole tok Hk).
    cbn [Dependency.id Dependency.version]. split; [done|]. split; [done|].
    right. split; [reflexivity|]. by left.
Qed.

Lemma tokens_nonempty (s t : string) : In t (tokens s) -> t <> EmptyString.
Proof.
  unfold tokens. rewrite filter_In. intros [_ Ht]. by apply truthy_true.
Qed.

(** X3. A non-empty dependency token parses to a dependency whose id and
    version are both non-empty, and the token is the id alone (version
    ["*"]), the id followed by ["@"] (version ["*"]), or the id, ["@"] and
    the version: nothing of the token is lost but an empty version. *)
Theorem parseDependency_wellformed (tok : string) :
  tok <> EmptyString ->
  let d := parseDependency tok in
  Dependency.id d <> EmptyString
  /\ Dependency.version d <> EmptyString
  /\ (tok = Dependency.id d +:+ "@" +:+ Dependency.version d
      \/ (Dependency.version d = "*"
          /\ (tok = Dependency.id d \/ tok = Dependency.id d +:+ "@"))).
Proof. intros Htok d. exact (parseDependency_shape tok Htok). Qed.

Lemma parseDependency_wellformed_witness :
  Dependency.id (parseDependency "geode.node-ids@") <> EmptyString
  /\ Dependency.version (parseDependency "geode.node-ids@") = "*".
Proof.
  destruct (parseDependency_wellformed "geode.node-ids@") as (Hid & _ & _);
    [discriminate|].
  split; [exact Hid|reflexivity].
Defined.

Section DependencyList.
Context `{NUM : JSNumber}.

Lemma obj_get_cond_ne {V} (b : bool) k k' (v : V) (o : list (string * V)) :
  k <> k' -> obj_get k (if b then obj_set k' v o else o) = obj_get k o.
Proof. intros H. destruct b; [by apply obj_get_set_ne|reflexivity]. Qed.

(** X4. The property [dependencies] of the manifest is there exactly when
    the field holds a non-empty token, and is then the list of the parsed
    tokens in their order, each required and with a non-empty id and a
    non-empty version; a field of commas and blanks alone gives no
    property. *)
Theorem modJson_dependencies (data : ModData.t) :
  obj_get "dependencies" (modJson data)
  = (if (0 <? length (tokens (ModData.dependencies data)))%nat
     then Some (JArr (map json_of_dependency
                        (map parseDependency
                           (tokens (ModData.dependencies data)))))
     else None)
  /\ (forall d,
        In d (map parseDependency (tokens (ModData.dependencies data))) ->
        Dependency.required d = true
        /\ Dependency.id d <> EmptyString
        /\ Dependency.version d <> EmptyString).
Proof.
  split.
  - assert (JS.truthy (ModData.dependencies data) = false ->
            tokens (ModData.dependencies data) = []) as Hempty.
    { intros ->%truthy_false. reflexivity. }
    unfold modJson, dependenciesOf. cbv zeta. rewrite length_map.
    rewrite obj_get_cond_ne by discriminate.
    destruct (JS.truthy (ModData.dependencies data)) eqn:Ed.
    + destruct (0 <? length (tokens (ModData.dependencies data)))%nat;
        rewrite ?obj_get_set_eq, ?obj_get_cond_ne by discriminate; reflexivity.
    + rewrite (Hempty eq_refl). cbn [length Nat.ltb Nat.leb].
      rewrite ?obj_get_cond_ne by discriminate. reflexivity.
  - intros d (tok & <- & Htok)%in_map_iff.
    pose proof (tokens_nonempty _ _ Htok) as Hne.
    destruct (parseDependency_shape tok Hne) as (Hid & Hv & _).
    split; [|done]. unfold parseDependency.
    by destruct (0 <? JS.lastIndexOf "@" tok).
Qed.

(** X5. The property [tags] of the manifest is there exactly when the
    field is non-empty, and is then the list of its clean tokens; a field
    of commas and blanks alone gives the empty list. *)
Theorem modJson_tags (data : ModData.t) :
  obj_get "tags" (modJson data)
  = (if JS.truthy (ModData.tags data)
     then Some (JArr (map JStr (tokens (ModData.tags data))))
     else None)
  /\ (forall t, In t (tokens (ModData.tags data)) ->
                t <> EmptyString /\ JS.trim t = t)
  /\ (ModData.tags data <> EmptyString ->
      tokens (ModData.tags data) = [] ->
      obj_get "tags" (modJson data) = Some (JArr [])).
Proof.
  assert (obj_get "tags" (modJson data)
          = (if JS.truthy (ModData.tags data)
             then Some (JArr (map JStr (tokens (ModData.tags data))))
             else None)) as Htags.
  { unfold modJson. cbv zeta. rewrite obj_get_cond_ne by discriminate.
    destruct (JS.truthy (ModData.dependencies data));
      [destruct (0 <? length (dependenciesOf data))%nat|];
      rewrite ?obj_get_set_ne by discriminate;
      (destruct (JS.truthy (ModData.tags data));
       rewrite ?obj_get_set_eq, ?obj_get_cond_ne by discriminate; reflexivity). }
  split; [exact Htags|]. split.
  - intros t Ht. split; [exact (tokens_nonempty _ _ Ht)|].
    unfold tokens in Ht. rewrite filter_In, in_map_iff in Ht.
    destruct Ht as [(x & <- & _) _]. apply trim_idem.
  - intros Hne%truthy_true E. by rewrite Htags, Hne, E.
Qed.

End DependencyList.

(** The sample form has two dependencies and two tags. *)
Lemma modJson_dependencies_witness :
  Dependency.id (parseDependency "@scoped") <> EmptyString
  /\ Dependency.version (parseDependency "geode.node-ids@>=1.0") <> EmptyString.
Proof.
  destruct (@modJson_dependencies Run.numbers sampleData) as (_ & Hall).
  split.
  - apply (Hall (parseDependency "@scoped")). right. left. reflexivity.
  - apply (Hall (parseDependency "geode.node-ids@>=1.0")). left. reflexivity.
Defined.

Lemma modJson_tags_witness :
  JS.trim "utility" = "utility"
  /\ obj_get "tags"
       (@modJson Run.numbers
          (@withSettings Run.numbers
             (ModData.mk "a.b" "N" "v1" "D" EmptyString None EmptyString
                EmptyString menulayer false (Platforms.mk true true true true)
                "*" "2.0.0-beta.26" " , ," false false []) []))
     = Some (JArr []).
Proof.
  split.
  - destruct (@modJson_tags Run.numbers sampleData) as (_ & Hclean & _).
    apply (Hclean "utility"). right. left. reflexivity.
  - match goal with
    | |- obj_get _ (modJson ?d) = _ =>
        destruct (@modJson_tags Run.numbers d) as (_ & _ & Hnone)
    end.
    apply Hnone; [discriminate|reflexivity].
Defined.

(** ** The settings of the manifest *)

Section SettingsObject.
Context `{NUM : JSNumber}.
Implicit Types (l : list ModSetting.t) (o : list (string * json)).

Lemma obj_set_keys_NoDup {V} k (v : V) (o : list (string * V)) :
  NoDup (obj_keys o) -> NoDup (obj_keys (obj_set k v o)).
Proof.
  unfold obj_keys. induction o as [|[k' v'] o IH]; cbn [obj_set map fst].
  - intros _. apply NoDup_singleton.
  - intros [Hnot Hnd]%NoDup_cons. destruct (String.eqb_spec k' k) as [->|Hne].
    + cbn [map fst]. by apply NoDup_cons.
    + cbn [map fst]. apply NoDup_cons. split; [|by apply IH].
      intros Hin. apply Hnot. clear -Hin Hne.
      induction o as [|[k0 v0] o IHo]; cbn [obj_set map fst] in *.
      * apply list_elem_of_singleton in Hin. congruence.
      * destruct (String.eqb_spec k0 k) as [->|Hne0]; cbn [map fst] in Hin.
        -- apply elem_of_cons in Hin as [Hin|Hin]; [congruence|].
           apply elem_of_cons. by right.
        -- apply elem_of_cons in Hin as [Hin|Hin]; apply elem_of_cons;
             [by left|right; by apply IHo].
Qed.

Lemma obj_set_keys_present {V} k (v : V) (o : list (string * V)) :
  is_Some (obj_get k o) -> obj_keys (obj_set k v o) = obj_keys o.
Proof.
  unfold obj_keys. induction o as [|[k' v'] o IH]; cbn [obj_get obj_set map fst].
  - intros [? ?]. done.
  - destruct (String.eqb_spec k' k) as [->|Hne]; [done|].
    intros H. cbn [map fst]. by rewrite IH.
Qed.

Lemma obj_get_snoc {V} k k' (v : V) (o : list (string * V)) :
  obj_get k (o ++ [(k', v)])
  = match obj_get k o with
    | Some x => Some x
    | None => if String.eqb k' k then Some v else None
    end.
Proof.
  induction o as [|[k0 v0] o IH]; cbn [app obj_get]; [done|].
  by destruct (String.eqb k0 k).
Qed.

Lemma insertIndex_get_ne {V} n k k' (v : V) (o : list (string * V)) :
  k' <> k -> obj_get k' (insertIndex n k v o) = obj_get k' o.
Proof.
  intros Hne. induction o as [|[k0 v0] o IH]; cbn [insertIndex obj_get].
  - destruct (String.eqb_spec k k'); [congruence|done].
  - destruct (arrayIndex k0) as [m|]; [destruct (m <? n)%N|]; cbn [obj_get];
      rewrite ?IH; destruct (String.eqb_spec k k'); congruence.
Qed.

Lemma insertIndex_get_eq {V} n k (v : V) (o : list (string * V)) :
  obj_get k o = None -> obj_get k (insertIndex n k v o) = Some v.
Proof.
  induction o as [|[k0 v0] o IH]; cbn [insertIndex obj_get].
  - intros _. by rewrite String.eqb_refl.
  - destruct (String.eqb k0 k) eqn:E; [done|]. intros H.
    destruct (arrayIndex k0) as [m|]; [destruct (m <? n)%N|]; cbn [obj_get];
      rewrite ?E, ?String.eqb_refl; auto.
Qed.

Lemma insertIndex_keys {V} n k (v : V) (o : list (string * V)) :
  obj_keys (insertIndex n k v o) ≡ₚ k :: obj_keys o.
Proof.
  unfold obj_keys. induction o as [|[k0 v0] o IH]; cbn [insertIndex map fst].
  - done.
  - destruct (arrayIndex k0) as [m|]; [destruct (m <? n)%N|]; cbn [map fst];
      try done.
    rewrite IH. apply Permutation_swap.
Qed.

Lemma obj_assign_get_ne {V} k k' (v : V) (o : list (string * V)) :
  k' <> k -> obj_get k' (obj_assign k v o) = obj_get k' o.
Proof.
  intros Hne. unfold obj_assign. destruct (String.eqb k "__proto__"); [done|].
  destruct (obj_get k o) eqn:E.
  - by apply obj_get_set_ne.
  - destruct (arrayIndex k) as [n|].
    + by apply insertIndex_get_ne.
    + rewrite obj_get_snoc. destruct (obj_get k' o); [done|].
      destruct (String.eqb_spec k k'); congruence.
Qed.

Lemma obj_assign_get_eq {V} k (v : V) (o : list (string * V)) :
  k <> "__proto__" -> obj_get k (obj_assign k v o) = Some v.
Proof.
  intros Hne%String.eqb_neq. unfold obj_assign. rewrite Hne.
  destruct (obj_get k o) eqn:E.
  - apply obj_get_set_eq.
  - destruct (arrayIndex k) as [n|].
    + by apply insertIndex_get_eq.
    + by rewrite obj_get_snoc, E, String.eqb_refl.
Qed.

Lemma obj_assign_NoDup {V} k (v : V) (o : list (string * V)) :
  NoDup (obj_keys o) -> NoDup (obj_keys (obj_assign k v o)).
Proof.
  intros Hnd. unfold obj_assign. destruct (String.eqb k "__proto__"); [done|].
  destruct (obj_get k o) eqn:E; [by apply obj_set_keys_NoDup|].
  assert (k ∉ obj_keys o) as Hk.
  { rewrite list_elem_of_In, <- obj_get_keys, E. by intros [? ?]. }
  destruct (arrayIndex k) as [n|].
  - rewrite insertIndex_keys. by apply NoDup_cons.
  - unfold obj_keys in *. rewrite map_app. cbn [map fst].
    apply NoDup_app. split; [done|]. split; [|apply NoDup_singleton].
    intros x Hx ->%list_elem_of_singleton. done.
Qed.

Lemma ownKeyOrder_snoc ks k :
  arrayIndex k = None -> ownKeyOrder ks = true -> ownKeyOrder (ks ++ [k]) = true.
Proof.
  intros Hk. induction ks as [|k0 ks IH]; cbn [app ownKeyOrder].
  - by rewrite Hk.
  - intros [H0 Hks]%andb_true_iff. rewrite (IH Hks), andb_true_r.
    destruct (arrayIndex k0); rewrite forallb_app, H0; cbn [forallb];
      by rewrite Hk.
Qed.

Lemma ownKeyOrder_insertIndex {V} n k (v : V) (o : list (string * V)) :
  arrayIndex k = Some n ->
  ownKeyOrder (obj_keys o) = true ->
  ownKeyOrder (obj_keys (insertIndex n k v o)) = true.
Proof.
  intros Hk. unfold obj_keys.
  induction o as [|[k0 v0] o IH]; cbn [insertIndex map fst ownKeyOrder].
  - by rewrite Hk.
  - intros [H0 Ho]%andb_true_iff. destruct (arrayIndex k0) as [m|] eqn:E0.
    + destruct (N.ltb_spec m n) as [Hlt|Hge].
      * cbn [map fst ownKeyOrder]. rewrite E0, (IH Ho), andb_true_r.
        apply forallb_forall. intros x Hx.
        apply (Permutation_in _ (insertIndex_keys n k v o)) in Hx.
        destruct Hx as [<-|Hx].
        -- rewrite Hk. apply N.leb_le. lia.
        -- rewrite forallb_forall in H0. by apply H0.
      * cbn [map fst ownKeyOrder forallb]. rewrite Hk, E0, H0, Ho.
        rewrite !andb_true_r. apply andb_true_iff. split; [apply N.leb_le; lia|].
        apply forallb_forall. intros x Hx. rewrite forallb_forall in H0.
        specialize (H0 x Hx). destruct (arrayIndex x) as [q|]; [|done].
        apply N.leb_le in H0. apply N.leb_le. lia.
    + cbn [map fst ownKeyOrder forallb]. rewrite Hk, E0, H0, Ho.
      rewrite !andb_true_r. apply forallb_forall. intros x Hx.
      rewrite forallb_forall in H0. specialize (H0 x Hx).
      by destruct (arrayIndex x).
Qed.

Lemma obj_assign_ordered {V} k (v : V) (o : list (string * V)) :
  ownKeyOrder (obj_keys o) = true ->
  ownKeyOrder (obj_keys (obj_assign k v o)) = true.
Proof.
  intros H. unfold obj_assign. destruct (String.eqb k "__proto__"); [done|].
  destruct (obj_get k o) eqn:E.
  - rewrite obj_set_keys_present by (rewrite E; eauto). exact H.
  - destruct (arrayIndex k) as [n|] eqn:Ek.
    + by apply ownKeyOrder_insertIndex.
    + unfold obj_keys in *. rewrite map_app. cbn [map fst].
      by apply ownKeyOrder_snoc.
Qed.

Lemma settings_fold_get l o k :
  k <> "__proto__" ->
  obj_get k (fold_left settingsStep l o)
  = match last (List.filter (has_key k) l) with
    | Some setting => Some (json_of_setting setting)
    | None => obj_get k o
    end.
Proof.
  intros Hk. revert o. induction l as [|s l IH]; intros o; [reflexivity|].
  cbn [fold_left List.filter]. rewrite IH. unfold has_key at 2, settingsStep.
  destruct (String.eqb_spec (ModSetting.key s) k) as [<-|Hne].
  - destruct (List.filter (has_key (ModSetting.key s)) l) as [|s' l'] eqn:E.
    + cbn [last]. by apply obj_assign_get_eq.
    + rewrite (last_cons s).
      destruct (last (s' :: l')); [done|by apply obj_assign_get_eq].
  - destruct (last (List.filter (has_key k) l)); [done|].
    apply obj_assign_get_ne. congruence.
Qed.

Lemma settings_fold_proto l o :
  obj_get "__proto__" (fold_left settingsStep l o) = obj_get "__proto__" o.
Proof.
  revert o. induction l as [|s l IH]; intros o; [reflexivity|].
  cbn [fold_left]. rewrite IH. unfold settingsStep.
  destruct (String.eqb_spec (ModSetting.key s) "__proto__") as [E|Hne].
  - unfold obj_assign. by rewrite E.
  - apply obj_assign_get_ne. congruence.
Qed.

Lemma settings_fold_invariant l o :
  NoDup (obj_keys o) -> ownKeyOrder (obj_keys o) = true ->
  NoDup (obj_keys (fold_left settingsStep l o))
  /\ ownKeyOrder (obj_keys (fold_left settingsStep l o)) = true.
Proof.
  revert o. induction l as [|s l IH]; intros o Hnd Hord; [done|].
  cbn [fold_left]. apply IH; [by apply obj_assign_NoDup|by apply obj_assign_ordered].
Qed.

(** X6. The settings object of the manifest has every key once, the keys
    that are array indices first and ascending; under a key other than
    [__proto__] it holds the entry of the last setting of the form with
    that key, so of two settings with one key only the later one reaches
    the manifest, and a key no setting has is absent; a setting with the
    key [__proto__] never gives an entry. *)
Theorem settingsObject_last_wins l :
  NoDup (obj_keys (settingsObject l))
  /\ ownKeyOrder (obj_keys (settingsObject l)) = true
  /\ (forall k,
        k <> "__proto__" ->
        obj_get k (settingsObject l)
        = json_of_setting <$> last (List.filter (has_key k) l))
  /\ obj_get "__proto__" (settingsObject l) = None
  /\ (forall before s after,
        l = before ++ s :: after ->
        ModSetting.key s <> "__proto__" ->
        (forall s', In s' after -> ModSetting.key s' <> ModSetting.key s) ->
        obj_get (ModSetting.key s) (settingsObject l)
        = Some (json_of_setting s)).
Proof.
  change (settingsObject l) with (fold_left settingsStep l []).
  assert (forall k,
             k <> "__proto__" ->
             obj_get k (fold_left settingsStep l [])
             = json_of_setting <$> last (List.filter (has_key k) l)) as Hget.
  { intros k Hk. rewrite settings_fold_get by done. by destruct (last _). }
  destruct (settings_fold_invariant l [] (NoDup_nil_2) eq_refl) as [Hnd Hord].
  split; [exact Hnd|]. split; [exact Hord|]. split; [exact Hget|].
  split; [apply settings_fold_proto|].
  intros before s after -> Hproto Hafter. rewrite Hget by done.
  rewrite List.filter_app. cbn [List.filter]. unfold has_key at 2.
  rewrite String.eqb_refl.
  assert (List.filter (has_key (ModSetting.key s)) after = []) as ->.
  { clear -Hafter. induction after as [|s' after IH]; [reflexivity|].
    cbn [List.filter]. unfold has_key at 1.
    destruct (String.eqb_spec (ModSetting.key s') (ModSetting.key s)) as [E|_].
    - exfalso. apply (Hafter s'); [by left|exact E].
    - apply IH. intros s'' Hin. apply Hafter. by right. }
  by rewrite last_snoc.
Qed.

End SettingsObject.

(** Of the two settings of the sample form with the key [speed], the
    float one, which comes later, is in the manifest. *)
Lemma settingsObject_last_wins_witness :
  obj_get "speed" (@settingsObject Run.numbers (ModData.settings sampleData))
  = Some (@json_of_setting Run.numbers
            (Run.setting "s3" "speed" "Speed again" "How fast, again" Tfloat
               (@VNum Run.numbers (Some 3)))).
Proof.
  destruct (@settingsObject_last_wins Run.numbers (ModData.settings sampleData))
    as (_ & _ & _ & _ & Hlast).
  apply (Hlast
           [Run.setting "s1" "speed" "Speed" "How fast" Tint (VStr "12");
            Run.setting "s2" "enabled" "Enabled" "On or off" Tbool (VBool true)]
           (Run.setting "s3" "speed" "Speed again" "How fast, again" Tfloat
              (@VNum Run.numbers (Some 3))) []);
    [reflexivity|discriminate|intros s' []].
Defined.

(** * Further properties of the store *)

Section StoreComposition.
Context `{NUM : JSNumber} `{PR : !JSONPrinter}.
Implicit Types (modData : ModData.t) (year : Z) (path : string).
Implicit Types (previous : GeneratedFiles).

Lemma generateFiles_empty year modData :
  generateFiles year modData (Some ∅) = generateFiles year modData None.
Proof.
  apply map_eq. intros path. rewrite generateFiles_lookup, lookup_empty.
  by destruct (keepAsset path).
Qed.

(** Two previous trees with the same kept assets regenerate alike. *)
Lemma generateFiles_agree year modData previous1 previous2 :
  (forall path, keepAsset path = true -> previous1 !! path = previous2 !! path) ->
  generateFiles year modData (Some previous1)
  = generateFiles year modData (Some previous2).
Proof.
  intros H. apply map_eq. intros path. rewrite !generateFiles_lookup.
  destruct (keepAsset path) eqn:E; [|done]. by rewrite (H path E).
Qed.

(** X7. A regeneration reads nothing of the previous tree but its kept
    assets (the entries under [assets/] other than the logo and the
    placeholder): two previous trees that agree on those give the same
    tree, and an absent previous tree counts as an empty one. *)
Theorem generateFiles_only_reads_assets year modData previous1 previous2 :
  ((forall rest,
       "assets/" +:+ rest <> "assets/logo.png" ->
       "assets/" +:+ rest <> "assets/.gitkeep" ->
       previous1 !! ("assets/" +:+ rest) = previous2 !! ("assets/" +:+ rest)) ->
   generateFiles year modData (Some previous1)
   = generateFiles year modData (Some previous2))
  /\ generateFiles year modData (Some ∅) = generateFiles year modData None.
Proof.
  split; [|apply generateFiles_empty].
  intros H. apply generateFiles_agree. intros path Hk.
  apply keepAsset_true in Hk as (Hs & Hl & Hg).
  apply startsWith_inv in Hs as [rest ->]. by apply H.
Qed.

(** X8. Regenerating twice is regenerating once: the tree [generateFiles]
    builds is a fixed point of the regeneration. *)
Theorem generateFiles_idempotent year modData
    (generatedFiles : option GeneratedFiles) :
  generateFiles year modData
    (Some (generateFiles year modData generatedFiles))
  = generateFiles year modData generatedFiles.
Proof.
  apply map_eq. intros path. rewrite generateFiles_lookup.
  destruct generatedFiles as [previous|].
  - rewrite generateFiles_lookup.
    destruct (keepAsset path); [|done].
    destruct (previous !! path); [done|].
    by destruct (generatorOutput year modData !! path).
  - destruct (keepAsset path) eqn:E; [|done].
    change (generateFiles year modData None) with (generatorOutput year modData).
    by destruct (generatorOutput year modData !! path).
Qed.

(** X9. A manual edit of a file outside the kept assets is lost at the
    next regeneration, as if it had not been made; an edit of a kept asset
    is still there after it. *)
Theorem regenerate_discards_edits year modData
    (generatedFiles : option GeneratedFiles) (path newContent : string) :
  (keepAsset path = false ->
   generateFiles year modData
     (handleFileContentChange path newContent generatedFiles)
   = generateFiles year modData generatedFiles)
  /\ (forall previous,
        generatedFiles = Some previous -> keepAsset path = true ->
        generateFiles year modData
          (handleFileContentChange path newContent generatedFiles) !! path
        = Some (Some newContent)).
Proof.
  split.
  - intros Hk. destruct generatedFiles as [previous|]; [|reflexivity].
    cbn [handleFileContentChange]. apply generateFiles_agree.
    intros p Hp. apply lookup_insert_ne. congruence.
  - intros previous -> Hk. cbn [handleFileContentChange].
    by rewrite generateFiles_lookup, Hk, lookup_insert_eq.
Qed.

(** X10. The files an AI batch adds outside the kept assets are lost at
    the next regeneration as well: when no written entry of the batch is a
    kept asset, the regeneration gives what it would have given without
    the batch. *)
Theorem regenerate_discards_batch year modData
    (generatedFiles : option GeneratedFiles) (batch : list AiFile) :
  (forall f path, In f batch -> complete f = true ->
                  filePath f = Some path -> keepAsset path = false) ->
  generateFiles year modData (Some (mergeMany batch generatedFiles))
  = generateFiles year modData generatedFiles.
Proof.
  intros H.
  assert (forall path, keepAsset path = true ->
            mergeMany batch generatedFiles !! path
            = default ∅ generatedFiles !! path) as Hsame.
  { intros path Hk. unfold mergeMany. apply fold_mergeStep_other.
    intros f Hin Hc Hp. specialize (H f path Hin Hc Hp). congruence. }
  destruct generatedFiles as [previous|].
  - by apply generateFiles_agree.
  - rewrite <- generateFiles_empty. by apply generateFiles_agree.
Qed.

End StoreComposition.

(** A picture of the previous tree is all a regeneration reads of it. *)
Lemma generateFiles_only_reads_assets_witness :
  @generateFiles Run.numbers Run.printer 2026 Run.modData
    (Some {[ "assets/extra.png" := Some "iVBORw0KGgo=";
             "src/extra.cpp" := Some "int x;" ]})
  = @generateFiles Run.numbers Run.printer 2026 Run.modData
      (Some {[ "assets/extra.png" := Some "iVBORw0KGgo=" ]}).
Proof.
  destruct (@generateFiles_only_reads_assets Run.numbers Run.printer 2026
              Run.modData
              {[ "assets/extra.png" := Some "iVBORw0KGgo=";
                 "src/extra.cpp" := Some "int x;" ]}
              {[ "assets/extra.png" := Some "iVBORw0KGgo=" ]}) as (Hagree & _).
  apply Hagree. intros rest _ _.
  destruct (decide ("assets/" +:+ rest = "assets/extra.png")) as [->|Hne].
  - reflexivity.
  - rewrite lookup_insert_ne by done. rewrite !lookup_singleton_ne; [done|done|].
    rewrite append_cons. discriminate.
Defined.

(** An edit of [README.md] is lost, an edit of an asset descriptor
    stays. *)
Lemma regenerate_discards_edits_witness :
  @generateFiles Run.numbers Run.printer 2026 Run.modData
    (handleFileContentChange "README.md" "my notes" (Some ∅))
  = @generateFiles Run.numbers Run.printer 2026 Run.modData (Some ∅)
  /\ @generateFiles Run.numbers Run.printer 2026 Run.modData
       (handleFileContentChange "assets/extra.plist" "<plist/>" (Some ∅))
       !! "assets/extra.plist"
     = Some (Some "<plist/>").
Proof.
  split.
  - destruct (@regenerate_discards_edits Run.numbers Run.printer 2026
                Run.modData (Some ∅) "README.md" "my notes") as (Hlost & _).
    apply Hlost. reflexivity.
  - destruct (@regenerate_discards_edits Run.numbers Run.printer 2026
                Run.modData (Some ∅) "assets/extra.plist" "<plist/>")
      as (_ & Hkept).
    apply (Hkept ∅); reflexivity.
Defined.

(** A source file the assistant wrote is gone after a regeneration. *)
Lemma regenerate_discards_batch_witness :
  @generateFiles Run.numbers Run.printer 2026 Run.modData
    (Some (mergeMany
             [ {| filePath := Some "src/extra.cpp"; fileContent := Some "int x;" |} ]
             None))
  = @generateFiles Run.numbers Run.printer 2026 Run.modData None.
Proof.
  apply (@regenerate_discards_batch Run.numbers Run.printer 2026 Run.modData
           None
           [ {| filePath := Some "src/extra.cpp"; fileContent := Some "int x;" |} ]).
  intros f path [<-|[]] _ [= <-]. reflexivity.
Defined.

(** ** What the generator's tree holds *)

Lemma split_none sep s : includes sep s = false -> JS.split sep s = [s].
Proof.
  induction s as [|a s IH]; [reflexivity|]. cbn [includes JS.split].
  intros [Ha Hs]%orb_false_iff. by rewrite Ha, (IH Hs).
Qed.

Lemma split_first sep pre post :
  includes sep pre = false ->
  JS.split sep (pre +:+ String sep post) = pre :: JS.split sep post.
Proof.
  induction pre as [|a pre IH].
  - intros _. rewrite append_empty_l. cbn [JS.split]. by rewrite Ascii.eqb_refl.
  - cbn [includes]. intros [Ha Hs]%orb_false_iff.
    rewrite append_cons. cbn [JS.split]. by rewrite Ha, (IH Hs).
Qed.

Section GeneratorTree.
Context `{NUM : JSNumber} `{PR : !JSONPrinter}.
Implicit Types (modData : ModData.t) (year : Z) (path : string).

Lemma generatorOutput_ci year modData :
  generatorOutput year modData !! ".github/workflows/main.yml"
  = if ModData.includeCi modData then Some (Some generateCIWorkflow) else None.
Proof.
  rewrite generatorOutput_unfold. cbv zeta. unfold baseFiles.
  rewrite !list_to_map_cons, list_to_map_nil.
  destruct (ModData.includeCi modData), (ModData.logo modData) as [logo|];
    try destruct (JS.truthy logo);
    rewrite ?lookup_insert_ne by done;
    rewrite ?lookup_insert_eq, ?lookup_empty; reflexivity.
Qed.

Lemma generatorOutput_logo year modData :
  generatorOutput year modData !! "assets/logo.png"
  = match ModData.logo modData with
    | Some logo => if JS.truthy logo then Some (logoBase64 logo) else None
    | None => None
    end.
Proof.
  rewrite generatorOutput_unfold. cbv zeta.
  destruct (ModData.includeCi modData), (ModData.logo modData) as [logo|];
    try destruct (JS.truthy logo);
    rewrite ?lookup_insert_eq, ?lookup_insert_ne by done;
    try apply baseFiles_logo; reflexivity.
Qed.

Lemma generatorOutput_keys year modData path :
  is_Some (generatorOutput year modData !! path)
  <-> In path ["mod.json"; "CMakeLists.txt"; "src/main.cpp"; "README.md";
               ".gitignore"; "LICENSE"; "CONTRIBUTING.md"; "assets/.gitkeep"]
      \/ (ModData.includeCi modData = true
          /\ path = ".github/workflows/main.yml")
      \/ (JS.truthy_opt (ModData.logo modData) = true
          /\ path = "assets/logo.png").
Proof.
  rewrite generatorOutput_unfold. cbv zeta. unfold baseFiles.
  rewrite !list_to_map_cons, list_to_map_nil.
  destruct (ModData.includeCi modData), (ModData.logo modData) as [logo|];
    cbn [JS.truthy_opt]; try destruct (JS.truthy logo);
    repeat (rewrite lookup_insert; case_decide;
            [subst path; split; [intros _; cbn [In]; tauto|intros _; eauto]|]);
    rewrite lookup_empty;
    (split; [intros [? ?]; done|]);
    cbn [In]; intros [Hin|[[? Hin]|[? Hin]]]; try discriminate;
    try congruence; repeat (destruct Hin as [Hin|Hin]; [congruence|]); done.
Qed.

(** X11. The generator's tree has the eight fixed entries, the CI workflow
    exactly when the CI flag is on, the logo entry exactly when a logo is
    set, and no other entry. *)
Theorem generatorOutput_entries year modData :
  (forall path,
      is_Some (generatorOutput year modData !! path)
      <-> In path ["mod.json"; "CMakeLists.txt"; "src/main.cpp"; "README.md";
                   ".gitignore"; "LICENSE"; "CONTRIBUTING.md"; "assets/.gitkeep"]
          \/ (ModData.includeCi modData = true
              /\ path = ".github/workflows/main.yml")
          \/ (JS.truthy_opt (ModData.logo modData) = true
              /\ path = "assets/logo.png"))
  /\ generatorOutput year modData !! ".github/workflows/main.yml"
     = (if ModData.includeCi modData
        then Some (Some generateCIWorkflow) else None)
  /\ generatorOutput year modData !! "assets/logo.png"
     = match ModData.logo modData with
       | Some logo => if JS.truthy logo then Some (logoBase64 logo) else None
       | None => None
       end.
Proof.
  split; [apply generatorOutput_keys|].
  split; [apply generatorOutput_ci|apply generatorOutput_logo].
Qed.

End GeneratorTree.

(** X12. For a logo given as a data URL, a prefix without comma, a comma
    and the base64 text, the logo entry holds the base64 text; for a logo
    text without any comma the entry is there with undefined content. *)
Theorem logoBase64_data_url (logo : string) :
  (forall pre base64 : string,
      logo = pre +:+ "," +:+ base64 ->
      includes "," pre = false -> includes "," base64 = false ->
      logoBase64 logo = Some base64)
  /\ (includes "," logo = false -> logoBase64 logo = None).
Proof.
  unfold logoBase64. split.
  - intros pre base64 -> Hpre Hb.
    change (pre +:+ "," +:+ base64) with (pre +:+ String "," base64).
    by rewrite (split_first _ _ _ Hpre), (split_none _ _ Hb).
  - intros H. by rewrite (split_none _ _ H).
Qed.

Lemma logoBase64_data_url_witness :
  logoBase64 "data:image/png;base64,iVBORw0KGgo=" = Some "iVBORw0KGgo="
  /\ logoBase64 "iVBORw0KGgo=" = None.
Proof.
  split.
  - destruct (logoBase64_data_url "data:image/png;base64,iVBORw0KGgo=")
      as (Hurl & _).
    apply (Hurl "data:image/png;base64" "iVBORw0KGgo="); reflexivity.
  - destruct (logoBase64_data_url "iVBORw0KGgo=") as (_ & Hnone).
    apply Hnone. reflexivity.
Defined.

(** ** The archive as a whole *)

(** What the loop of [handleDownload] leaves in the archive at a path. *)
Lemma zipFiles_lookup (generatedFiles : GeneratedFiles) (path : string) :
  zipFiles generatedFiles !! path
  = match generatedFiles !! path with
    | Some (Some content) =>
        Some (if isTextFile path then ZipText content else ZipBase64 content)
    | _ => None
    end.
Proof.
  unfold zipFiles.
  apply (map_fold_weak_ind (fun (r : gmap string ZipData) (m : GeneratedFiles) =>
    r !! path = match m !! path with
                | Some (Some content) =>
                    Some (if isTextFile path then ZipText content
                          else ZipBase64 content)
                | _ => None
                end)).
  - by rewrite !lookup_empty.
  - intros i x m r Hi IH. unfold addFileToZip.
    destruct (decide (i = path)) as [->|Hne].
    + rewrite lookup_insert_eq. rewrite Hi in IH.
      destruct x as [content|]; [|exact IH].
      destruct (isTextFile path); cbn [negb]; apply lookup_insert_eq.
    + rewrite (lookup_insert_ne m) by done.
      destruct x as [content|]; [|exact IH].
      destruct (negb (isTextFile i)); rewrite lookup_insert_ne by done; exact IH.
Qed.

(** X13. The archive has one entry for every file of the tree with
    content, under the same path and with the same content, as text or as
    base64 by the suffix of the path; a file with undefined content, and a
    path the tree does not have, are not in the archive. *)
Theorem zipFiles_entries (generatedFiles : GeneratedFiles) (path : string) :
  (forall content,
      generatedFiles !! path = Some (Some content) ->
      zipFiles generatedFiles !! path
      = Some (if isTextFile path then ZipText content else ZipBase64 content))
  /\ (generatedFiles !! path = Some None -> zipFiles generatedFiles !! path = None)
  /\ (generatedFiles !! path = None -> zipFiles generatedFiles !! path = None).
Proof.
  rewrite zipFiles_lookup. repeat split.
  - by intros content ->.
  - by intros ->.
  - by intros ->.
Qed.

Lemma zipFiles_entries_witness :
  zipFiles {[ "mod.json" := Some "{}"; "assets/logo.png" := None ]} !! "mod.json"
  = Some (ZipText "{}")
  /\ zipFiles {[ "mod.json" := Some "{}"; "assets/logo.png" := None ]}
       !! "assets/logo.png" = None.
Proof.
  destruct (zipFiles_entries
              {[ "mod.json" := Some "{}"; "assets/logo.png" := None ]} "mod.json")
    as (Htext & _).
  destruct (zipFiles_entries
              {[ "mod.json" := Some "{}"; "assets/logo.png" := None ]}
              "assets/logo.png") as (_ & Hundef & _).
  split; [apply (Htext "{}")|apply Hundef]; reflexivity.
Defined.

Lemma isTextFile_last path :
  isTextFile path = true ->
  exists a, last_char path = Some a /\ a <> "g"%char.
Proof.
  intros (pre & ext & Hin & ->)%isTextFile_iff.
  unfold textSuffixes in Hin. cbn [In] in Hin.
  repeat (destruct Hin as [<-|Hin];
          [rewrite last_char_append by done; eexists; split;
           [reflexivity|discriminate]|]).
  destruct Hin.
Qed.

(** X14. The editor and the archive agree on pictures: a file the editor
    shows as a picture (its path ends with [.png]) is never written as
    text, so its content goes into the archive as base64. *)
Theorem isImageFile_archived_as_base64 (generatedFiles : GeneratedFiles)
    (path content : string) :
  isImageFile path = true ->
  isTextFile path = false
  /\ (generatedFiles !! path = Some (Some content) ->
      zipFiles generatedFiles !! path = Some (ZipBase64 content)).
Proof.
  unfold isImageFile. intros [pre ->]%endsWith_inv.
  assert (isTextFile (pre +:+ ".png") = false) as Htext.
  { destruct (isTextFile (pre +:+ ".png")) eqn:E; [|reflexivity].
    apply isTextFile_last in E as (a & Ha & Hne).
    rewrite last_char_append in Ha by done. by injection Ha as <-. }
  split; [exact Htext|]. intros H. by rewrite zipFiles_lookup, H, Htext.
Qed.

Lemma isImageFile_archived_as_base64_witness :
  zipFiles {[ "assets/extra.png" := Some "iVBORw0KGgo=" ]} !! "assets/extra.png"
  = Some (ZipBase64 "iVBORw0KGgo=").
Proof.
  destruct (isImageFile_archived_as_base64
              {[ "assets/extra.png" := Some "iVBORw0KGgo=" ]}
              "assets/extra.png" "iVBORw0KGgo=") as (_ & Hzip); [reflexivity|].
  apply Hzip. reflexivity.
Defined.

Section GeneratedArchive.
Context `{NUM : JSNumber} `{PR : !JSONPrinter}.

(** X15. Every file of the generator's tree goes into the archive as text,
    but the logo, which goes in as base64. *)
Theorem generatorOutput_archived (year : Z) (modData : ModData.t)
    (path content : string) :
  generatorOutput year modData !! path = Some (Some content) ->
  zipFiles (generatorOutput year modData) !! path
  = Some (if String.eqb path "assets/logo.png"
          then ZipBase64 content else ZipText content).
Proof.
  intros H. rewrite zipFiles_lookup, H.
  assert (is_Some (generatorOutput year modData !! path)) as Hsome by eauto.
  revert Hsome. clear H. rewrite generatorOutput_unfold. cbv zeta. unfold baseFiles.
  rewrite !list_to_map_cons, list_to_map_nil.
  destruct (ModData.includeCi modData), (ModData.logo modData) as [logo|];
    try destruct (JS.truthy logo);
    repeat (rewrite lookup_insert; case_decide; [subst path; reflexivity|]);
    rewrite lookup_empty; by intros [? ?].
Qed.

End GeneratedArchive.

Lemma generatorOutput_archived_witness :
  zipFiles (@generatorOutput Run.numbers Run.printer 2026 Run.modData)
    !! "assets/.gitkeep" = Some (ZipText EmptyString).
Proof.
  apply (@generatorOutput_archived Run.numbers Run.printer 2026 Run.modData
           "assets/.gitkeep" EmptyString).
  apply generatorOutput_gitkeep.
Defined.

(** ** Generated assets *)

Lemma map_chars_append f s t :
  JS.map_chars f (s +:+ t) = JS.map_chars f s +:+ JS.map_chars f t.
Proof.
  induction s as [|a s IH]; [reflexivity|].
  rewrite append_cons. cbn [JS.map_chars]. by rewrite IH, append_cons.
Qed.

Lemma all_chars_map_chars (P : ascii -> bool) f s :
  (forall a, P (f a) = true) -> all_chars P (JS.map_chars f s) = true.
Proof.
  intros H. induction s as [|a s IH]; [reflexivity|].
  cbn [JS.map_chars all_chars]. by rewrite H, IH.
Qed.

Lemma map_chars_fixed (P : ascii -> bool) f s :
  (forall a, P a = true -> f a = a) ->
  all_chars P s = true -> JS.map_chars f s = s.
Proof.
  intros H. induction s as [|a s IH]; [reflexivity|].
  cbn [JS.map_chars all_chars]. intros [Ha Hs]%andb_true_iff.
  by rewrite (H a Ha), (IH Hs).
Qed.

Lemma sanitize_char_safe (a : ascii) :
  safeChar (JS.lower_char (if fileNameChar a then a else "-"%char)) = true.
Proof. destruct a as [[] [] [] [] [] [] [] []]; reflexivity. Qed.

Lemma safeChar_fixed (a : ascii) :
  safeChar a = true ->
  JS.lower_char (if fileNameChar a then a else "-"%char) = a.
Proof. destruct a as [[] [] [] [] [] [] [] []]; intros H; try reflexivity; discriminate H. Qed.

Lemma sanitizeFileName_chars fileName :
  sanitizeFileName fileName
  = JS.map_chars (fun a => JS.lower_char (if fileNameChar a then a else "-"%char))
      (if JS.endsWith ".png" fileName then fileName else fileName +:+ ".png").
Proof.
  unfold sanitizeFileName, JS.toLowerCase.
  generalize (if JS.endsWith ".png" fileName then fileName else fileName +:+ ".png").
  intros s. induction s as [|a s IH]; [reflexivity|].
  cbn [JS.map_chars]. by rewrite IH.
Qed.

Lemma sanitizeFileName_png fileName :
  exists base, sanitizeFileName fileName = base +:+ ".png".
Proof.
  rewrite sanitizeFileName_chars.
  assert (exists pre, (if JS.endsWith ".png" fileName then fileName
                       else fileName +:+ ".png") = pre +:+ ".png") as [pre ->].
  { destruct (JS.endsWith ".png" fileName) eqn:E; [by apply endsWith_inv|eauto]. }
  rewrite map_chars_append. eauto.
Qed.

(** X16. A sanitized file name is made of lower-case letters, digits,
    [-], [_] and [.] only and ends with [.png]; sanitizing it again
    changes nothing. *)
Theorem sanitizeFileName_safe (fileName : string) :
  all_chars safeChar (sanitizeFileName fileName) = true
  /\ JS.endsWith ".png" (sanitizeFileName fileName) = true
  /\ sanitizeFileName (sanitizeFileName fileName) = sanitizeFileName fileName.
Proof.
  assert (all_chars safeChar (sanitizeFileName fileName) = true) as Hsafe.
  { rewrite sanitizeFileName_chars. apply all_chars_map_chars, sanitize_char_safe. }
  assert (JS.endsWith ".png" (sanitizeFileName fileName) = true) as Hpng.
  { destruct (sanitizeFileName_png fileName) as [base ->]. apply endsWith_append. }
  split; [exact Hsafe|]. split; [exact Hpng|].
  rewrite (sanitizeFileName_chars (sanitizeFileName fileName)), Hpng.
  exact (map_chars_fixed safeChar _ _ safeChar_fixed Hsafe).
Qed.

Lemma eqb_startsWith p s : String.eqb p s = true -> JS.startsWith p s = true.
Proof.
  intros ->%String.eqb_eq. induction s as [|a s IH]; [reflexivity|].
  cbn [JS.startsWith]. by rewrite Ascii.eqb_refl, IH.
Qed.

(** Replacing the first [.png] by [.plist] makes the name two characters
    longer. *)
Lemma replaceFirst_png_longer s :
  JS.endsWith ".png" s = true ->
  JS.strlen (JS.replaceFirst ".png" ".plist" s) = JS.strlen s + 2.
Proof.
  induction s as [|a s IH]; [discriminate|].
  cbn [JS.endsWith JS.replaceFirst]. intros H.
  destruct (JS.startsWith ".png" (String a s)) eqn:E.
  - apply startsWith_inv in E as [rest E]. rewrite E, substringFrom_suffix.
    rewrite !strlen_append.
    change (JS.strlen ".png") with 4. change (JS.strlen ".plist") with 6. lia.
  - apply orb_true_iff in H as [H|H].
    + apply eqb_startsWith in H. congruence.
    + rewrite !strlen_cons, (IH H). lia.
Qed.

(** A base name without a dot: the first [.png] is the final one. *)
Lemma replaceFirst_png_base base :
  includes "." base = false ->
  JS.replaceFirst ".png" ".plist" (base +:+ ".png") = base +:+ ".plist".
Proof.
  induction base as [|a base IH]; [reflexivity|].
  cbn [includes]. intros [Ha Hb]%orb_false_iff.
  rewrite !append_cons. cbn [JS.replaceFirst JS.startsWith].
  rewrite Ascii.eqb_sym, Ha. cbn [andb]. by rewrite (IH Hb).
Qed.

(** X17. The update after a generated asset stores the picture under
    [assets/] and its sanitized name and the descriptor under the name with
    the first [.png] replaced by [.plist], two different paths; it removes
    the placeholder and leaves every other entry as it was.  When the
    sanitized name has no dot before its final [.png], the descriptor is
    that name with [.plist] for [.png]. *)
Theorem mergeAsset_entries (fileName base64ImageBytes plistContent : string)
    (prev : option GeneratedFiles) :
  let image := "assets/" +:+ sanitizeFileName fileName in
  let plist :=
    "assets/" +:+ JS.replaceFirst ".png" ".plist" (sanitizeFileName fileName) in
  let merged := mergeAsset fileName base64ImageBytes plistContent prev in
  image <> plist
  /\ merged !! image = Some (Some base64ImageBytes)
  /\ merged !! plist = Some (Some plistContent)
  /\ merged !! "assets/.gitkeep" = None
  /\ (forall path,
        path <> image -> path <> plist -> path <> "assets/.gitkeep" ->
        merged !! path = default ∅ prev !! path)
  /\ (forall base,
        sanitizeFileName fileName = base +:+ ".png" ->
        includes "." base = false ->
        plist = "assets/" +:+ base +:+ ".plist").
Proof.
  intros image plist merged.
  assert (image <> plist) as Hne.
  { unfold image, plist. intros E.
    apply (f_equal JS.strlen) in E. rewrite !strlen_append in E.
    rewrite replaceFirst_png_longer in E; [lia|].
    destruct (sanitizeFileName_png fileName) as [base ->]. apply endsWith_append. }
  split; [exact Hne|]. unfold merged, mergeAsset. cbv zeta.
  fold image. fold plist. split; [|split; [|split; [|split]]].
  - rewrite lookup_insert_ne by done. apply lookup_insert_eq.
  - apply lookup_insert_eq.
  - apply mergeAsset_removes_gitkeep.
  - intros path H1 H2 H3.
    by rewrite !lookup_insert_ne, lookup_delete_ne by done.
  - intros base E Hdot. unfold plist. by rewrite E, replaceFirst_png_base.
Qed.

(** The asset [Coin Icon] becomes [assets/coin-icon.png] with the
    descriptor [assets/coin-icon.plist]. *)
Lemma mergeAsset_entries_witness :
  mergeAsset "Coin Icon" "iVBORw0KGgo=" "<plist/>" None
    !! "assets/coin-icon.plist" = Some (Some "<plist/>")
  /\ mergeAsset "Coin Icon" "iVBORw0KGgo=" "<plist/>"
       (Some {[ "README.md" := Some "text" ]}) !! "README.md"
     = Some (Some "text").
Proof.
  split.
  - destruct (mergeAsset_entries "Coin Icon" "iVBORw0KGgo=" "<plist/>" None)
      as (_ & _ & Hplist & _ & _ & Hname).
    pose proof (Hname "coin-icon" eq_refl eq_refl) as E.
    rewrite E in Hplist. exact Hplist.
  - destruct (mergeAsset_entries "Coin Icon" "iVBORw0KGgo=" "<plist/>"
                (Some {[ "README.md" := Some "text" ]}))
      as (_ & _ & _ & _ & Hother & _).
    rewrite (Hother "README.md"); [reflexivity|discriminate..].
Defined.

(** ** Responses of the assistant *)

(** X18. A response with a [files] array is merged as a batch, whatever
    else it holds, and leaves a tree even when the batch is empty and there
    was none; the old single-file response acts as a batch of one entry;
    any other response leaves the tree, present or absent, as it was. *)
Theorem handleResponse_shapes (prev : option GeneratedFiles) :
  (forall r l, json_files r = Some l ->
               handleResponse (Some r) prev = Some (mergeMany l prev))
  /\ (forall r, json_files r = Some [] ->
                handleResponse (Some r) None = Some ∅)
  /\ (forall r path content,
        json_files r = None ->
        json_filePath r = Some path -> json_fileContent r = Some content ->
        path <> EmptyString -> content <> EmptyString ->
        handleResponse (Some r) prev
        = Some (mergeMany
                  [ {| filePath := Some path; fileContent := Some content |} ]
                  prev))
  /\ (forall r,
        json_files r = None ->
        JS.truthy_opt (json_filePath r) && JS.truthy_opt (json_fileContent r)
        = false ->
        handleResponse (Some r) prev = prev)
  /\ handleResponse None prev = prev.
Proof.
  repeat split.
  - intros r l H. unfold handleResponse. by rewrite H.
  - intros r H. unfold handleResponse. by rewrite H.
  - intros r path content Hf Hp Hc Hpath%truthy_true Hcontent%truthy_true.
    unfold handleResponse. rewrite Hf, Hp, Hc, Hpath, Hcontent.
    unfold mergeMany, mergeLegacy. cbn [fold_left mergeStep filePath fileContent].
    cbn [JS.truthy_opt]. by rewrite Hpath, Hcontent.
  - intros r Hf H. unfold handleResponse. rewrite Hf.
    destruct (json_filePath r) as [path|], (json_fileContent r) as [content|];
      try reflexivity.
    cbn [JS.truthy_opt] in H. by rewrite H.
Qed.

Lemma handleResponse_shapes_witness :
  handleResponse
    (Some {| json_files := None; json_filePath := Some "src/a.cpp";
             json_fileContent := Some "int a;" |}) None
  = Some {[ "src/a.cpp" := Some "int a;" ]}
  /\ handleResponse
       (Some {| json_files := None; json_filePath := Some "src/a.cpp";
                json_fileContent := None |})
       (Some {[ "README.md" := Some "text" ]})
     = Some {[ "README.md" := Some "text" ]}.
Proof.
  split.
  - destruct (handleResponse_shapes None) as (_ & _ & Hlegacy & _).
    rewrite (Hlegacy _ "src/a.cpp" "int a;"); [reflexivity..|discriminate|discriminate].
  - destruct (handleResponse_shapes (Some {[ "README.md" := Some "text" ]}))
      as (_ & _ & _ & Hother & _).
    apply Hother; reflexivity.
Defined.

(** ** The settings list of the form *)

Section FormList.
Context `{NUM : JSNumber}.
Implicit Types (modData : ModData.t) (id : string) (l : list ModSetting.t).

Lemma withSettings_same modData :
  withSettings modData (ModData.settings modData) = modData.
Proof. by destruct modData. Qed.

Lemma filter_other_ids id l :
  (forall s, In s l -> ModSetting.id s <> id) ->
  List.filter (fun s => negb (String.eqb (ModSetting.id s) id)) l = l.
Proof.
  induction l as [|s l IH]; [reflexivity|]. intros H. cbn [List.filter].
  destruct (String.eqb_spec (ModSetting.id s) id) as [E|_].
  - exfalso. apply (H s); [by left|exact E].
  - cbn [negb]. rewrite IH; [done|]. intros s' Hs'. apply H. by right.
Qed.

(** X19. Removing the setting that was just added gives the form data
    back, provided no older setting has the id the clock gave; two
    settings added at the same clock value share their id, and removing
    one removes both. *)
Theorem removeSetting_addSetting (now : Z) modData :
  ((forall s, In s (ModData.settings modData) ->
              ModSetting.id s <> "setting-" +:+ pretty now) ->
   removeSetting ("setting-" +:+ pretty now) (addSetting now modData) = modData)
  /\ removeSetting ("setting-" +:+ pretty now)
       (addSetting now (addSetting now modData))
     = removeSetting ("setting-" +:+ pretty now) modData
  /\ length (ModData.settings (addSetting now modData))
     = S (length (ModData.settings modData)).
Proof.
  split; [|split].
  - intros Hfresh. unfold removeSetting, addSetting. cbv zeta.
    destruct modData as [i n v d de lo dep repo tpl ci pl gdv gv tg api el sets].
    unfold withSettings. cbn [ModData.settings ModData.id ModData.name
      ModData.version ModData.developer ModData.description ModData.logo
      ModData.dependencies ModData.repository ModData.cppTemplate
      ModData.includeCi ModData.platforms ModData.gdVersion
      ModData.geodeVersion ModData.tags ModData.providesApi ModData.earlyLoad] in *.
    rewrite List.filter_app. cbn [List.filter ModSetting.id].
    rewrite String.eqb_refl. cbn [negb]. rewrite app_nil_r.
    by rewrite filter_other_ids.
  - unfold removeSetting, addSetting. cbv zeta.
    destruct modData as [i n v d de lo dep repo tpl ci pl gdv gv tg api el sets].
    unfold withSettings. cbn [ModData.settings ModData.id ModData.name
      ModData.version ModData.developer ModData.description ModData.logo
      ModData.dependencies ModData.repository ModData.cppTemplate
      ModData.includeCi ModData.platforms ModData.gdVersion
      ModData.geodeVersion ModData.tags ModData.providesApi ModData.earlyLoad].
    rewrite !List.filter_app. cbn [List.filter ModSetting.id].
    rewrite String.eqb_refl. cbn [negb]. by rewrite !app_nil_r.
  - unfold addSetting, withSettings. cbn [ModData.settings].
    rewrite length_app. cbn [length]. lia.
Qed.

(** X20. A change of one field of a setting keeps the number of settings
    and leaves every setting with another id as it is; unless the field is
    the id itself, the ids stay the same, in the same order. *)
Theorem handleSettingChange_frame id (c : SettingChange) modData :
  let changed := ModData.settings (handleSettingChange id c modData) in
  length changed = length (ModData.settings modData)
  /\ (forall (i : nat) s,
        ModData.settings modData !! i = Some s -> ModSetting.id s <> id ->
        changed !! i = Some s)
  /\ ((forall v, c <> SetId v) ->
      map ModSetting.id changed = map ModSetting.id (ModData.settings modData)).
Proof.
  intros changed. unfold changed, handleSettingChange. cbn [ModData.settings].
  split; [unfold newSettings; apply length_map|]. split.
  - intros i s Hs Hid. rewrite newSettings_lookup, Hs.
    cbn [fmap option_fmap option_map]. apply String.eqb_neq in Hid. by rewrite Hid.
  - intros Hc. unfold newSettings. rewrite List.map_map. apply List.map_ext.
    intros s. destruct (String.eqb (ModSetting.id s) id); [|reflexivity].
    destruct c; try reflexivity. by destruct (Hc v).
Qed.

End FormList.

Lemma removeSetting_addSetting_witness :
  @removeSetting Run.numbers "setting-1700000000000"
    (@addSetting Run.numbers 1700000000000 Run.modData)
  = Run.modData.
Proof.
  destruct (@removeSetting_addSetting Run.numbers 1700000000000 Run.modData)
    as (Hback & _).
  apply Hback. intros s [<-|[]]. discriminate.
Defined.

Lemma handleSettingChange_frame_witness :
  map ModSetting.id
    (ModData.settings
       (@handleSettingChange Run.numbers "s2" (SetDefault (VBool false))
          sampleData))
  = ["s1"; "s2"; "s3"].
Proof.
  destruct (@handleSettingChange_frame Run.numbers "s2"
              (SetDefault (VBool false)) sampleData) as (_ & _ & Hids).
  rewrite Hids; [reflexivity|discriminate].
Defined.

(** ** The editor *)

(** X21. A manual edit stores the text under the path and touches no other
    file, and the editor then shows that text; without a tree it does
    nothing.  Of two edits of one file the later one stays, and edits of
    two files can be made in either order. *)
Theorem handleFileContentChange_edits (path newContent : string)
    (prev : option GeneratedFiles) :
  (forall tree,
      prev = Some tree ->
      exists edited,
        handleFileContentChange path newContent prev = Some edited
        /\ edited !! path = Some (Some newContent)
        /\ currentFileContent edited path = newContent
        /\ (forall other, other <> path -> edited !! other = tree !! other))
  /\ (prev = None -> handleFileContentChange path newContent prev = None)
  /\ (forall older,
        handleFileContentChange path newContent
          (handleFileContentChange path older prev)
        = handleFileContentChange path newContent prev)
  /\ (forall path' content',
        path' <> path ->
        handleFileContentChange path newContent
          (handleFileContentChange path' content' prev)
        = handleFileContentChange path' content'
            (handleFileContentChange path newContent prev)).
Proof.
  split; [|split; [|split]].
  - intros tree ->. eexists. split; [reflexivity|].
    unfold currentFileContent. rewrite lookup_insert_eq.
    split; [done|]. split; [done|].
    intros other Hne. by apply lookup_insert_ne.
  - by intros ->.
  - intros older. destruct prev as [tree|]; [|reflexivity].
    cbn [handleFileContentChange]. by rewrite insert_insert_eq.
  - intros path' content' Hne. destruct prev as [tree|]; [|reflexivity].
    cbn [handleFileContentChange]. by rewrite insert_insert_ne.
Qed.

Lemma handleFileContentChange_edits_witness :
  handleFileContentChange "README.md" "new"
    (Some {[ "README.md" := Some "old" ]})
  = Some {[ "README.md" := Some "new" ]}.
Proof.
  destruct (handleFileContentChange_edits "README.md" "new"
              (Some {[ "README.md" := Some "old" ]})) as (Hedit & _).
  destruct (Hedit {[ "README.md" := Some "old" ]} eq_refl)
    as (edited & E & _).
  rewrite E. f_equal. injection E as <-. apply insert_singleton_eq.
Defined.

Section Selection.
Context `{NUM : JSNumber} `{PR : !JSONPrinter}.

Lemma generateFiles_modjson year (modData : ModData.t)
    (generatedFiles : option GeneratedFiles) :
  generateFiles year modData generatedFiles !! "mod.json"
  = Some (Some (generateModJson modData)).
Proof.
  assert (generatorOutput year modData !! "mod.json"
          = Some (Some (generateModJson modData))) as Hgen.
  { rewrite generatorOutput_unfold. cbv zeta. unfold baseFiles.
    rewrite !list_to_map_cons, list_to_map_nil.
    destruct (ModData.includeCi modData), (ModData.logo modData) as [logo|];
      try destruct (JS.truthy logo);
      rewrite ?lookup_insert_ne by done; apply lookup_insert_eq. }
  destruct generatedFiles as [previous|]; [|exact Hgen].
  rewrite generateFiles_lookup. exact Hgen.
Qed.

Lemma generateFiles_placeholder year (modData : ModData.t)
    (generatedFiles : option GeneratedFiles) :
  generateFiles year modData generatedFiles !! "assets/.gitkeep"
  = Some (Some EmptyString).
Proof.
  destruct generatedFiles as [previous|]; [|apply generatorOutput_gitkeep].
  rewrite generateFiles_lookup. apply generatorOutput_gitkeep.
Qed.

Lemma prototypeNames_existsb (name : string) :
  existsb (String.eqb name) prototypeNames = true <-> In name prototypeNames.
Proof.
  rewrite existsb_exists. split.
  - by intros (x & Hx & ->%String.eqb_eq).
  - intros H. exists name. split; [exact H|apply String.eqb_refl].
Qed.

(** X22. In a generated tree the editor keeps a file selected while the
    tree holds it with non-empty content: no selection, a file the tree
    holds with empty or undefined content, and a missing file whose name
    [Object.prototype] does not have, all give way to [mod.json].  So the
    placeholder [assets/.gitkeep], whose content is empty, cannot stay
    selected.  A missing file whose name [Object.prototype] has
    ([constructor], [toString], ...) stays selected. *)
Theorem selectFile_generated year (modData : ModData.t)
    (generatedFiles : option GeneratedFiles) (fileList : list string) :
  let tree := generateFiles year modData generatedFiles in
  (forall path, In path fileList <-> is_Some (tree !! path)) ->
  selectFile tree fileList "assets/.gitkeep" = "mod.json"
  /\ selectFile tree fileList EmptyString = "mod.json"
  /\ (forall selectedFile,
        (tree !! selectedFile = None /\ ~ In selectedFile prototypeNames)
        \/ tree !! selectedFile = Some None
        \/ tree !! selectedFile = Some (Some EmptyString) ->
        selectFile tree fileList selectedFile = "mod.json")
  /\ (forall selectedFile content,
        selectedFile <> EmptyString -> content <> EmptyString ->
        tree !! selectedFile = Some (Some content) ->
        selectFile tree fileList selectedFile = selectedFile)
  /\ (forall selectedFile,
        In selectedFile prototypeNames -> tree !! selectedFile = None ->
        selectFile tree fileList selectedFile = selectedFile).
Proof.
  intros tree Hkeys.
  assert (existsb (String.eqb "mod.json") fileList = true) as Hmod.
  { apply existsb_exists. exists "mod.json". split; [|reflexivity].
    apply Hkeys. unfold tree. rewrite generateFiles_modjson. eauto. }
  assert (forall selectedFile,
             (tree !! selectedFile = None /\ ~ In selectedFile prototypeNames)
             \/ tree !! selectedFile = Some None
             \/ tree !! selectedFile = Some (Some EmptyString) ->
             selectFile tree fileList selectedFile = "mod.json") as Hdrop.
  { intros selectedFile H. unfold selectFile.
    assert (memberTruthy tree selectedFile = false) as ->.
    { unfold memberTruthy. destruct H as [[-> Hn]|[->| ->]]; try reflexivity.
      destruct (existsb _ prototypeNames) eqn:E; [|reflexivity].
      by apply prototypeNames_existsb in E. }
    cbn [negb]. by rewrite orb_true_r, Hmod. }
  split; [|split; [|split; [exact Hdrop|split]]].
  - apply Hdrop. right. right. apply generateFiles_placeholder.
  - unfold selectFile. cbn [JS.truthy negb orb]. by rewrite Hmod.
  - intros selectedFile content Hs%truthy_true Hc%truthy_true Htree.
    unfold selectFile, memberTruthy. rewrite Hs, Htree. cbn [JS.truthy_opt].
    by rewrite Hc.
  - intros selectedFile Hin Htree. unfold selectFile, memberTruthy.
    rewrite Htree. apply prototypeNames_existsb in Hin as Hex. rewrite Hex.
    assert (JS.truthy selectedFile = true) as ->; [|reflexivity].
    apply truthy_true. intros ->. cbn in Hin. intuition discriminate.
Qed.

End Selection.

(** The tree generated from the initial form, with its eight files: the
    placeholder gives way to the manifest, the manifest stays selected. *)
Lemma selectFile_generated_witness :
  let tree := @generateFiles Run.numbers Run.printer 2026 Run.modData None in
  let fileList :=
    ["mod.json"; "CMakeLists.txt"; "src/main.cpp"; "README.md"; ".gitignore";
     "LICENSE"; "CONTRIBUTING.md"; "assets/.gitkeep"] in
  selectFile tree fileList "assets/.gitkeep" = "mod.json"
  /\ selectFile tree fileList "mod.json" = "mod.json"
  /\ selectFile tree fileList "constructor" = "constructor".
Proof.
  intros tree fileList.
  destruct (@selectFile_generated Run.numbers Run.printer 2026 Run.modData None
              fileList) as (Hplace & _ & _ & Hstay & Hproto).
  - intros path. unfold generateFiles.
    rewrite (@generatorOutput_keys Run.numbers Run.printer 2026 Run.modData path).
    cbn [Run.modData Run.form ModData.includeCi ModData.logo JS.truthy_opt].
    unfold fileList. intuition discriminate.
  - split; [exact Hplace|]. split.
    + apply (Hstay "mod.json"
               (@generateModJson Run.numbers Run.printer Run.modData));
        [discriminate|discriminate|].
      apply generateFiles_modjson.
    + apply Hproto; [left; reflexivity|].
      apply eq_None_not_Some. unfold generateFiles.
      rewrite (@generatorOutput_keys Run.numbers Run.printer 2026 Run.modData
                 "constructor").
      cbn [Run.modData Run.form ModData.includeCi ModData.logo JS.truthy_opt In].
      intuition discriminate.
Defined.

(** ** The identifier pattern and the download button *)





Section Download.
Context `{NUM : JSNumber} `{PR : !JSONPrinter}.


End Download.


(** * Further properties of the templates *)

Lemma startsWith_trans p s t :
  JS.startsWith p s = true -> JS.startsWith p (s +:+ t) = true.
Proof.
  intros [rest ->]%startsWith_inv. rewrite append_assoc. apply startsWith_append.
Qed.

Lemma includesStr_append_l p s t :
  includesStr p s = true -> includesStr p (s +:+ t) = true.
Proof.
  induction s as [|a s IH].
  - cbn [includesStr]. rewrite orb_false_r. intros H.
    destruct p; [|done]. by destruct t.
  - cbn [includesStr]. intros [H|H]%orb_true_iff.
    + pose proof (startsWith_trans _ _ t H) as H'.
      rewrite append_cons in H' |- *. cbn [includesStr]. by rewrite H'.
    + rewrite append_cons. cbn [includesStr]. rewrite (IH H). apply orb_true_r.
Qed.

Lemma includesStr_append_r p s t :
  includesStr p t = true -> includesStr p (s +:+ t) = true.
Proof.
  intros H. induction s as [|a s IH]; [by rewrite append_empty_l|].
  rewrite append_cons. cbn [includesStr]. rewrite IH. apply orb_true_r.
Qed.

Local Ltac find_marker :=
  repeat first
    [ apply includesStr_append_l; vm_compute; reflexivity
    | apply includesStr_append_r ];
  vm_compute; reflexivity.

Section TemplateProperties.
Context `{NUM : JSNumber}.

Lemma playlayer_prefix (data : ModData.t) :
  JS.startsWith "#include <Geode/Geode.hpp>
#include <Geode/modify/P" (generateMainCpp data)
  = match ModData.cppTemplate data with playlayer => true | _ => false end.
Proof.
  unfold generateMainCpp. destruct (ModData.cppTemplate data); reflexivity.
Qed.

Lemma settings_prefix (data : ModData.t) :
  JS.startsWith "#include <Geode/Geode.hpp>
#include <Geode/modify/MenuLayer.hpp>
#" (generateMainCpp data)
  = match ModData.cppTemplate data with settings_template => true | _ => false end.
Proof.
  unfold generateMainCpp. destruct (ModData.cppTemplate data); reflexivity.
Qed.

(** X24. The three templates give three different code stubs, whatever
    the form data: the template chosen can always be told from
    [src/main.cpp]. *)
Theorem generateMainCpp_tells_template (data1 data2 : ModData.t) :
  ModData.cppTemplate data1 <> ModData.cppTemplate data2 ->
  generateMainCpp data1 <> generateMainCpp data2.
Proof.
  intros Hne E.
  pose proof (playlayer_prefix data1) as Hp1.
  pose proof (playlayer_prefix data2) as Hp2.
  pose proof (settings_prefix data1) as Hs1.
  pose proof (settings_prefix data2) as Hs2.
  rewrite E in Hp1, Hs1. rewrite Hp2 in Hp1. rewrite Hs2 in Hs1.
  clear E Hp2 Hs2.
  destruct (ModData.cppTemplate data1), (ModData.cppTemplate data2);
    first [by apply Hne|discriminate Hp1|discriminate Hs1].
Qed.

(** X25. With no setting in the form, the settings template shows the
    text that the mod has no settings; and whatever the settings are, it
    opens the settings popup under the identifier of the mod. *)
Theorem generateSettingsLayerCpp_markers (data : ModData.t) :
  (ModData.settings data = [] ->
   includesStr "This mod has no settings." (generateSettingsLayerCpp data)
   = true)
  /\ includesStr "geode::ui::createSettingsPopup(" (generateSettingsLayerCpp data)
     = true
  /\ includesStr "class $modify(MyMenuLayerWithSettings, MenuLayer)"
       (generateSettingsLayerCpp data) = true.
Proof.
  split; [|split].
  - intros E. unfold generateSettingsLayerCpp. rewrite E. cbv zeta.
    cbn [length Nat.ltb Nat.leb List.find]. find_marker.
  - unfold generateSettingsLayerCpp. cbv zeta. find_marker.
  - unfold generateSettingsLayerCpp. cbv zeta.
    apply includesStr_append_r, includesStr_append_l.
    destruct (List.find is_bool_setting (ModData.settings data));
      do 2 apply includesStr_append_l; vm_compute; reflexivity.
Qed.

(** X26. The loop over the settings appends one fragment for each, in the
    order of the form and numbered by its position. *)
Theorem settingsUi_in_order (modId : string) (l : list ModSetting.t) :
  settingsUi modId 0 l EmptyString
  = foldr String.append EmptyString
      (imap (fun index setting => settingFragment modId index setting) l)
  /\ (forall before setting after acc,
        l = before ++ setting :: after ->
        settingsUi modId 0 l acc
        = settingsUi modId (S (length before)) after
            (settingsUi modId 0 before acc
             +:+ settingFragment modId (length before) setting)).
Proof.
  assert (forall (l' : list ModSetting.t) k acc,
             settingsUi modId k l' acc
             = acc +:+ foldr String.append EmptyString
                         (imap (fun index setting =>
                                  settingFragment modId (k + index) setting) l'))
    as Hfold.
  { induction l' as [|s l' IH]; intros k acc.
    - cbn. clear. induction acc as [|a acc IHa]; [reflexivity|].
      by rewrite append_cons, <- IHa.
    - cbn [settingsUi imap foldr]. rewrite IH, append_assoc, Nat.add_0_r.
      do 3 f_equal. apply imap_ext. intros i x _. cbn. f_equal. lia. }
  assert (forall (l1 l2 : list ModSetting.t) k acc,
             settingsUi modId k (l1 ++ l2) acc
             = settingsUi modId (k + length l1) l2 (settingsUi modId k l1 acc))
    as Happ.
  { induction l1 as [|s l1 IH]; intros l2 k acc.
    - cbn [app length settingsUi]. by rewrite Nat.add_0_r.
    - cbn [app length settingsUi]. rewrite IH. f_equal. lia. }
  split.
  - rewrite Hfold. reflexivity.
  - intros before setting after acc ->. rewrite Happ.
    cbn [settingsUi Nat.add]. reflexivity.
Qed.

End TemplateProperties.

Lemma generateMainCpp_tells_template_witness :
  @generateMainCpp Run.numbers Run.modData
  <> @generateMainCpp Run.numbers sampleData.
Proof.
  apply (@generateMainCpp_tells_template Run.numbers Run.modData sampleData).
  discriminate.
Defined.

(** * Generated assets and the regeneration *)

(** After the replacement the name holds [.plist]. *)
Lemma replaceFirst_png_plist s :
  JS.endsWith ".png" s = true ->
  includesStr ".plist" (JS.replaceFirst ".png" ".plist" s) = true.
Proof.
  induction s as [|a s IH]; [discriminate|].
  cbn [JS.endsWith JS.replaceFirst]. intros H.
  destruct (JS.startsWith ".png" (String a s)) eqn:E.
  - apply includesStr_append_l. reflexivity.
  - apply orb_true_iff in H as [H|H].
    + apply eqb_startsWith in H. congruence.
    + cbn [includesStr]. rewrite (IH H). apply orb_true_r.
Qed.

Section AssetsRegenerated.
Context `{NUM : JSNumber} `{PR : !JSONPrinter}.

(** X27. The descriptor of a generated asset is still in the tree after a
    regeneration, and so is the picture unless its sanitized name is
    [logo.png]: that path belongs to the logo of the form, so after a
    regeneration it holds the form's logo, or nothing when the form has
    none. *)
Theorem mergeAsset_regenerated (year : Z) (modData : ModData.t)
    (fileName base64ImageBytes plistContent : string)
    (prev : option GeneratedFiles) :
  let image := "assets/" +:+ sanitizeFileName fileName in
  let plist :=
    "assets/" +:+ JS.replaceFirst ".png" ".plist" (sanitizeFileName fileName) in
  let merged := mergeAsset fileName base64ImageBytes plistContent prev in
  generateFiles year modData (Some merged) !! plist = Some (Some plistContent)
  /\ (sanitizeFileName fileName <> "logo.png" ->
      generateFiles year modData (Some merged) !! image
      = Some (Some base64ImageBytes))
  /\ (sanitizeFileName fileName = "logo.png" ->
      generateFiles year modData (Some merged) !! image
      = generatorOutput year modData !! "assets/logo.png").
Proof.
  intros image plist merged.
  destruct (sanitizeFileName_png fileName) as [base Hbase].
  assert (JS.endsWith ".png" (sanitizeFileName fileName) = true) as Hpng.
  { rewrite Hbase. apply endsWith_append. }
  pose proof (sanitizeFileName_last fileName) as Hlast.
  assert (image <> plist) as Hne.
  { unfold image, plist. intros E.
    apply (f_equal JS.strlen) in E. rewrite !strlen_append in E.
    rewrite replaceFirst_png_longer in E; [lia|exact Hpng]. }
  assert (merged !! plist = Some (Some plistContent)) as Hplist.
  { unfold merged, mergeAsset. cbv zeta. apply lookup_insert_eq. }
  assert (merged !! image = Some (Some base64ImageBytes)) as Himage.
  { unfold merged, mergeAsset. cbv zeta. fold image. fold plist.
    rewrite lookup_insert_ne by done. apply lookup_insert_eq. }
  split; [|split].
  - rewrite generateFiles_lookup, Hplist.
    assert (keepAsset plist = true) as ->; [|reflexivity].
    apply keepAsset_true. split; [apply startsWith_append|]. split.
    + unfold plist. intros [= E]. rewrite append_empty_l in E.
      pose proof (replaceFirst_png_plist _ Hpng) as Hp. rewrite E in Hp.
      discriminate Hp.
    + unfold plist. intros [= E]. rewrite append_empty_l in E.
      pose proof (replaceFirst_png_plist _ Hpng) as Hp. rewrite E in Hp.
      discriminate Hp.
  - intros Hlogo. rewrite generateFiles_lookup, Himage.
    assert (keepAsset image = true) as ->; [|reflexivity].
    apply keepAsset_true. split; [apply startsWith_append|]. split.
    + unfold image. intros [= E]. rewrite append_empty_l in E. by apply Hlogo.
    + unfold image. intros [= E]. rewrite append_empty_l in E.
      rewrite E in Hlast. discriminate Hlast.
  - intros Hlogo. unfold image. rewrite Hlogo.
    rewrite generateFiles_lookup. reflexivity.
Qed.

End AssetsRegenerated.

(** A generated [logo] picture is replaced by the logo of the form, here
    none; a generated [coin] picture stays. *)
Lemma mergeAsset_regenerated_witness :
  @generateFiles Run.numbers Run.printer 2026 Run.modData
    (Some (mergeAsset "logo" "iVBORw0KGgo=" "<plist/>" None))
    !! "assets/logo.png" = None
  /\ @generateFiles Run.numbers Run.printer 2026 Run.modData
       (Some (mergeAsset "coin" "iVBORw0KGgo=" "<plist/>" None))
       !! "assets/coin.png" = Some (Some "iVBORw0KGgo=").
Proof.
  split.
  - destruct (@mergeAsset_regenerated Run.numbers Run.printer 2026 Run.modData
                "logo" "iVBORw0KGgo=" "<plist/>" None) as (_ & _ & Hlogo).
    transitivity (@generatorOutput Run.numbers Run.printer 2026 Run.modData
                    !! "assets/logo.png"); [exact (Hlogo eq_refl)|].
    apply generatorOutput_logo.
  - destruct (@mergeAsset_regenerated Run.numbers Run.printer 2026 Run.modData
                "coin" "iVBORw0KGgo=" "<plist/>" None) as (_ & Hkept & _).
    apply Hkept. discriminate.
Defined.

(** The sample form without its settings shows the text for no
    settings. *)
Lemma generateSettingsLayerCpp_markers_witness :
  includesStr "This mod has no settings."
    (@generateSettingsLayerCpp Run.numbers
       (@withSettings Run.numbers sampleData []))
  = true.
Proof.
  destruct (@generateSettingsLayerCpp_markers Run.numbers
              (@withSettings Run.numbers sampleData [])) as (Hnone & _).
  apply Hnone. reflexivity.
Defined.

(** The three settings of the sample form: the third fragment, numbered 2,
    comes after the first two. *)
Lemma settingsUi_in_order_witness :
  @settingsUi Run.numbers "com.dev.mod" 0 (ModData.settings sampleData)
    EmptyString
  = @settingsUi Run.numbers "com.dev.mod" 0
      (firstn 2 (ModData.settings sampleData)) EmptyString
    +:+ @settingFragment Run.numbers "com.dev.mod" 2
          (Run.setting "s3" "speed" "Speed again" "How fast, again" Tfloat
             (@VNum Run.numbers (Some 3))).
Proof.
  destruct (@settingsUi_in_order Run.numbers "com.dev.mod"
              (ModData.settings sampleData)) as (_ & Hsplit).
  exact (Hsplit (firstn 2 (ModData.settings sampleData))
           (Run.setting "s3" "speed" "Speed again" "How fast, again" Tfloat
              (@VNum Run.numbers (Some 3))) [] EmptyString eq_refl).
Defined.
